(** * Verification of [src/analysis/load_spectra.py]

    The module loads Raman spectra through an external spectroscopy
    library and assembles a metadata table next to them.  Its own code is
    glue: two helpers that extract members of a tar archive to temporary
    files, and three loaders.  This development embeds that glue in Rocq
    and proves what it does.

    Conventions of the embedding:
    - a Python [str] is a Rocq [string] holding the bytes of its UTF-8
      encoding, which for a file name are the bytes of the name on disk;
      the literals and bracket classes of the patterns in this module are
      ASCII, so they are matched byte by byte, while [\d] reads one code
      point and asks the Unicode database whether it is a decimal digit;
    - the Unicode database is a parameter ([is_decimal]): its content
      depends on the version of the interpreter;
    - a Python exception is a value of [exn]; a computation that may
      raise returns an [outcome];
    - the filesystem is explicit state ([World]), threaded through the
      archive helpers by a small state-and-exception monad;
    - everything imported from [ramanalysis] and the callable handed to
      the archive helpers are parameters of a section; the callable reads
      the disk and does not write to it. *)

From stdpp Require Import gmap strings list fin_maps.
From Stdlib Require Import ZArith Ascii String.

Open Scope string_scope.
Open Scope list_scope.

(** ** Exceptions and outcomes *)

Inductive exn :=
| FileNotFoundError
| ReadError
| KeyError
| AttributeError
| UnboundLocalError
| IndexError
| ValueError
| LibraryError (msg : string).

Inductive outcome (A : Type) :=
| Ok (a : A)
| Raise (e : exn).

Arguments Ok {A} a.
Arguments Raise {A} e.

Definition obind {A B} (o : outcome A) (f : A -> outcome B) : outcome B :=
  match o with
  | Ok a => f a
  | Raise e => Raise e
  end.

(** ** The filesystem seen by the archive helpers *)

(** What [tar.extractfile] finds under a member name: a regular file with
    its bytes, or a member that is not a file (a directory, a device), for
    which [extractfile] returns [None]. *)
Inductive member :=
| RegFile (data : string)
| NotAFile.

Module Tar.

Section Helpers.

(** Keyword arguments and return values of the wrapped callable. *)
Variables Kw V : Type.

(** [archives]: the tar files that can be opened, by path, each a table
    from member name to member.  [files]: the other regular files on
    disk, by path, among them the temporary ones.  A path is an archive,
    another regular file, or absent; directories are not part of the
    world.  [calls] is a ghost log of the
    invocations of the wrapped callable: positional arguments and
    keyword arguments of each call, oldest first. *)
Record World := mkWorld {
  archives : gmap string (gmap string member);
  files : gmap string string;
  calls : list (list string * Kw)
}.

Definition set_files (fs : gmap string string) (w : World) : World :=
  mkWorld (archives w) fs (calls w).

Definition log_call (c : list string * Kw) (w : World) : World :=
  mkWorld (archives w) (files w) (calls w ++ [c]).

(** The state-and-exception monad of the helpers. *)
Definition M (A : Type) : Type := World -> outcome A * World.

Definition ret {A} (a : A) : M A := fun w => (Ok a, w).

Definition raise {A} (e : exn) : M A := fun w => (Raise e, w).

Definition bind {A B} (m : M A) (f : A -> M B) : M B :=
  fun w =>
    match m w with
    | (Ok a, w1) => f a w1
    | (Raise e, w1) => (Raise e, w1)
    end.

Notation "x <- m ;; k" := (bind m (fun x => k))
  (at level 100, m at next level, right associativity).
Notation "m ;;; k" := (bind m (fun _ => k))
  (at level 100, right associativity).

(** [try: body finally: cleanup].  The cleanup always runs; when it
    raises, its exception replaces the outcome of the body. *)
Definition try_finally {A} (body : M A) (cleanup : M unit) : M A :=
  fun w =>
    match body w with
    | (r, w1) =>
        match cleanup w1 with
        | (Ok _, w2) => (r, w2)
        | (Raise e, w2) => (Raise e, w2)
        end
    end.

(** [for x in l: body x], stopping at the first exception. *)
Fixpoint for_each {A} (l : list A) (body : A -> M unit) : M unit :=
  match l with
  | [] => ret tt
  | x :: l' => body x ;;; for_each l' body
  end.

(** A [for] loop that updates one local variable [acc]. *)
Fixpoint for_acc {A S} (l : list A) (acc : S) (body : S -> A -> M S) : M S :=
  match l with
  | [] => ret acc
  | x :: l' => acc' <- body acc x ;; for_acc l' acc' body
  end.

(** The name picked by [tempfile.NamedTemporaryFile]: some path that does
    not exist yet. *)
Variable mktemp : gmap string string -> string.

(** What [tarfile.open(tarpath, "r")] raises on a path that holds no
    archive: [FileNotFoundError] from the built-in [open] when nothing is
    there, [tarfile.ReadError] when a file is there that no reader of
    [tarfile] accepts. *)
Definition open_error (w : World) (tarpath : string) : exn :=
  match files w !! tarpath with
  | None => FileNotFoundError
  | Some _ => ReadError
  end.

(** [with tarfile.open(tarpath, "r") as tar: body tar] *)
Definition with_tarfile_open {A} (tarpath : string)
    (body : gmap string member -> M A) : M A :=
  fun w =>
    match archives w !! tarpath with
    | None => (Raise (open_error w tarpath), w)
    | Some tar => body tar w
    end.

(** [tar.extractfile(filename)]: [KeyError] when the archive has no such
    member, [None] for a member that is not a file. *)
Definition extractfile (tar : gmap string member) (filename : string)
    : M (option string) :=
  match tar !! filename with
  | None => raise KeyError
  | Some (RegFile data) => ret (Some data)
  | Some NotAFile => ret None
  end.

Definition os_remove (path : string) : M unit :=
  fun w =>
    match files w !! path with
    | None => (Raise FileNotFoundError, w)
    | Some _ => (Ok tt, set_files (delete path (files w)) w)
    end.

(** [with tempfile.NamedTemporaryFile(delete=d) as tmp_file: body name].
    The file is created empty under a fresh name; leaving the block,
    normally or not, closes it and, when [d] is set, unlinks it. *)
Definition with_NamedTemporaryFile {A} (d : bool) (body : string -> M A)
    : M A :=
  fun w =>
    let name := mktemp (files w) in
    match body name (set_files (<[name := ""]> (files w)) w) with
    | (r, w1) =>
        (r, if d then set_files (delete name (files w1)) w1 else w1)
    end.

(** [shutil.copyfileobj(tar_member, tmp_file)], followed by the flush or
    close that puts the bytes on disk.  Reading from [None] raises
    [AttributeError]. *)
Definition copyfileobj (tar_member : option string) (tmp_file : string)
    : M unit :=
  match tar_member with
  | None => raise AttributeError
  | Some data => fun w => (Ok tt, set_files (<[tmp_file := data]> (files w)) w)
  end.

(** The wrapped callable: it is given temporary paths and keyword
    arguments, reads the files on disk, and returns a value or raises. *)
Definition callable : Type :=
  list string -> Kw -> gmap string string -> outcome V.

(** [function( *args, **kwargs)] *)
Definition call (function : callable) (args : list string) (kwargs : Kw)
    : M V :=
  fun w => (function args kwargs (files w), log_call (args, kwargs) w).

Definition tar_wrapper_single (tarpath filename : string)
    (function : callable) (kwargs : Kw) : M V :=
  out <- with_tarfile_open tarpath (fun tar =>
    tar_member <- extractfile tar filename ;;
    with_NamedTemporaryFile true (fun tmp_file =>
      copyfileobj tar_member tmp_file ;;;
      call function [tmp_file] kwargs)) ;;
  ret out.

(** The local [out] is bound only inside [if tmp_filenames:], so it is
    an [option]: [None] while unbound. *)
Definition tar_wrapper_multiple (tarpath : string) (filenames : list string)
    (function : callable) (kwargs : Kw) : M V :=
  tmp_filenames <- with_tarfile_open tarpath (fun tar =>
    for_acc filenames [] (fun tmp_filenames filename =>
      tar_member <- extractfile tar filename ;;
      with_NamedTemporaryFile false (fun tmp_file =>
        copyfileobj tar_member tmp_file ;;;
        ret (tmp_filenames ++ [tmp_file])))) ;;
  out <- match tmp_filenames with
         | [] => ret None
         | _ :: _ =>
             try_finally
               (v <- call function tmp_filenames kwargs ;; ret (Some v))
               (for_each tmp_filenames os_remove)
         end ;;
  match out with
  | None => raise UnboundLocalError
  | Some v => ret v
  end.

(** The temporary files that the extraction loop of
    [tar_wrapper_multiple] creates for members holding [datas], starting
    from the disk [fs]: their paths, in order, and the disk afterwards. *)
Fixpoint staged (datas : list string) (fs : gmap string string)
    : list string * gmap string string :=
  match datas with
  | [] => ([], fs)
  | d :: ds =>
      let p := mktemp fs in
      let '(ps, fs') := staged ds (<[p := d]> fs) in
      (p :: ps, fs')
  end.

End Helpers.

Arguments mkWorld {Kw} _ _ _.
Arguments archives {Kw} _.
Arguments files {Kw} _.
Arguments calls {Kw} _.
Arguments set_files {Kw} _ _.
Arguments log_call {Kw} _ _.
Arguments ret {Kw A} _ _.
Arguments raise {Kw A} _ _.
Arguments bind {Kw A B} _ _ _.
Arguments try_finally {Kw A} _ _ _.
Arguments for_each {Kw A} _ _ _.
Arguments for_acc {Kw A S} _ _ _ _.
Arguments open_error {Kw} _ _.
Arguments with_tarfile_open {Kw A} _ _ _.
Arguments extractfile {Kw} _ _ _.
Arguments os_remove {Kw} _ _.
Arguments with_NamedTemporaryFile {Kw} _ {A} _ _ _.
Arguments copyfileobj {Kw} _ _ _.
Arguments call {Kw V} _ _ _ _.
Arguments tar_wrapper_single {Kw V} _ _ _ _ _ _.
Arguments tar_wrapper_multiple {Kw V} _ _ _ _ _ _.

End Tar.

(** The last character of a string. *)
Fixpoint last_char (s : string) : option ascii :=
  match s with
  | EmptyString => None
  | String c EmptyString => Some c
  | String _ s' => last_char s'
  end.

(** ** Code points of a [str] *)

Module Utf8.

(** The six payload bits of a continuation byte [10xxxxxx]. *)
Definition continuation (b : ascii) : option N :=
  let n := N_of_ascii b in
  if ((128 <=? n) && (n <? 192))%N then Some (n - 128)%N else None.

(** The character at the head of a [str]: its code point, the bytes that
    encode it, and the rest.  Python decodes strictly: a sequence of one
    to four bytes, in its shortest form, that encodes neither a surrogate
    nor anything above U+10FFFF.  A byte that starts no such sequence is
    kept in the [str] as a lone surrogate, which is no character of any
    class asked for here: [decode] answers [None] on it. *)
Definition decode (s : string) : option (N * string * string) :=
  match s with
  | EmptyString => None
  | String b0 s1 =>
      let n0 := N_of_ascii b0 in
      if (n0 <? 128)%N then Some (n0, String b0 "", s1)
      else if (n0 <? 224)%N then
        match s1 with
        | String b1 s2 =>
            x1 ← continuation b1;
            let cp := ((n0 - 192) * 64 + x1)%N in
            if ((192 <=? n0) && (128 <=? cp))%N
            then Some (cp, String b0 (String b1 ""), s2)
            else None
        | _ => None
        end
      else if (n0 <? 240)%N then
        match s1 with
        | String b1 (String b2 s3) =>
            x1 ← continuation b1;
            x2 ← continuation b2;
            let cp := ((n0 - 224) * 4096 + x1 * 64 + x2)%N in
            if ((2048 <=? cp) && negb ((55296 <=? cp) && (cp <=? 57343)))%N
            then Some (cp, String b0 (String b1 (String b2 "")), s3)
            else None
        | _ => None
        end
      else
        match s1 with
        | String b1 (String b2 (String b3 s4)) =>
            x1 ← continuation b1;
            x2 ← continuation b2;
            x3 ← continuation b3;
            let cp := ((n0 - 240) * 262144 + x1 * 4096 + x2 * 64 + x3)%N in
            if ((65536 <=? cp) && (cp <=? 1114111))%N
            then Some (cp, String b0 (String b1 (String b2 (String b3 ""))), s4)
            else None
        | _ => None
        end
  end.

(** [x] is the encoding of the one character [cp]. *)
Definition encodes (x : string) (cp : N) : Prop := decode x = Some (cp, x, "").

End Utf8.

(** ** [fnmatch.fnmatch] *)

Module Fnmatch.

(** [fnmatchcase pat name]: shell-style matching, with [*] for any run of
    characters and [?] for any one character; every other character
    stands for itself.  The pattern of this module uses neither bracket
    expressions, which are not modelled, nor [?], which takes one byte
    here.  A run of bytes before an ASCII literal is a run of characters,
    since no ASCII byte lies inside the encoding of another character. *)
Fixpoint fnmatchcase (pat : string) : string -> bool :=
  match pat with
  | EmptyString =>
      fun name => match name with EmptyString => true | String _ _ => false end
  | String c pat' =>
      if Ascii.eqb c "*" then
        fix star (name : string) : bool :=
          fnmatchcase pat' name
          || match name with
             | EmptyString => false
             | String _ name' => star name'
             end
      else if Ascii.eqb c "?" then
        fun name =>
          match name with
          | EmptyString => false
          | String _ name' => fnmatchcase pat' name'
          end
      else
        fun name =>
          match name with
          | EmptyString => false
          | String d name' => Ascii.eqb c d && fnmatchcase pat' name'
          end
  end.

(** A pattern without wildcards. *)
Fixpoint plain (t : string) : Prop :=
  match t with
  | EmptyString => True
  | String c t' => c <> "*"%char /\ c <> "?"%char /\ plain t'
  end.

(** [fnmatch(name, pat)]; [os.path.normcase] is the identity on POSIX. *)
Definition fnmatch (name pat : string) : bool := fnmatchcase pat name.

End Fnmatch.

(** ** [re.match] *)

Module Re.

(** The fragment of Python's regular expressions used by the module.
    [Group n r] is the capturing group number [n]; a non-capturing group
    [(?:r)] is [r] itself. *)
Inductive regex :=
| Eps
| Bol
| Eol
| Chr (c : ascii)
| Range (lo hi : ascii)
| Digit
| Cat (r1 r2 : regex)
| Alt (r1 r2 : regex)
| Plus (r : regex)
| Group (n : nat) (r : regex).

(** A literal run of characters. *)
Fixpoint lit (s : string) : regex :=
  match s with
  | EmptyString => Eps
  | String c s' => Cat (Chr c) (lit s')
  end.

Definition in_range (lo hi c : ascii) : bool :=
  Nat.leb (nat_of_ascii lo) (nat_of_ascii c)
  && Nat.leb (nat_of_ascii c) (nat_of_ascii hi).

Section Unicode.

(** [is_decimal cp]: the character [cp] is a decimal digit for the
    Unicode database of the interpreter ([str.isdecimal], the class [\d]
    of a [str] pattern). *)
Variable is_decimal : N -> bool.

(** A string that does not start with a decimal digit. *)
Definition no_digit_head (rest : string) : Prop :=
  match Utf8.decode rest with
  | Some (cp, _, _) => is_decimal cp = false
  | None => True
  end.

(** Captured groups, by number. *)
Definition groups_t : Type := gmap nat string.

(** A continuation receives the position reached, the rest of the subject
    and the groups captured so far. *)
Definition cont : Type := nat -> string -> groups_t -> option groups_t.

Definition matcher : Type := nat -> string -> groups_t -> cont -> option groups_t.

(** Greedy repetition of [m], at most [fuel] more times: one more
    iteration is tried first, and only when everything after it fails is
    the continuation tried here.  An iteration has to consume input. *)
Fixpoint greedy (m : matcher) (fuel : nat) (pos : nat) (s : string)
    (g : groups_t) (k : cont) : option groups_t :=
  match fuel with
  | O => k pos s g
  | S fuel' =>
      match m pos s g (fun pos' s' g' =>
              if Nat.ltb pos pos' then greedy m fuel' pos' s' g' k else None) with
      | Some r => Some r
      | None => k pos s g
      end
  end.

(** One ASCII character of a class given on bytes. *)
Definition one_char (p : ascii -> bool) : matcher :=
  fun pos s g k =>
    match s with
    | EmptyString => None
    | String c s' => if p c then k (S pos) s' g else None
    end.

(** One character of a Unicode class. *)
Definition one_codepoint (p : N -> bool) : matcher :=
  fun pos s g k =>
    match Utf8.decode s with
    | Some (cp, x, s') => if p cp then k (pos + String.length x) s' g else None
    | None => None
    end.

(** The backtracking matcher: alternatives are tried left to right,
    repetition is greedy.  [$] matches at the end of the subject and just
    before a newline that ends it.  Positions count bytes; the only
    position that is looked at, by [^], is the start. *)
Fixpoint rmatch (r : regex) : matcher :=
  match r with
  | Eps => fun pos s g k => k pos s g
  | Bol => fun pos s g k => if Nat.eqb pos 0 then k pos s g else None
  | Eol =>
      fun pos s g k =>
        match s with
        | EmptyString => k pos s g
        | String c EmptyString =>
            if Ascii.eqb c "010" then k pos s g else None
        | String _ (String _ _) => None
        end
  | Chr c => one_char (Ascii.eqb c)
  | Range lo hi => one_char (in_range lo hi)
  | Digit => one_codepoint is_decimal
  | Cat r1 r2 =>
      fun pos s g k =>
        rmatch r1 pos s g (fun pos' s' g' => rmatch r2 pos' s' g' k)
  | Alt r1 r2 =>
      fun pos s g k =>
        match rmatch r1 pos s g k with
        | Some res => Some res
        | None => rmatch r2 pos s g k
        end
  | Plus r1 =>
      fun pos s g k =>
        rmatch r1 pos s g (fun pos' s' g' =>
          greedy (rmatch r1) (String.length s') pos' s' g' k)
  | Group n r1 =>
      fun pos s g k =>
        rmatch r1 pos s g (fun pos' s' g' =>
          k pos' s' (<[n := substring 0 (pos' - pos) s]> g'))
  end.

(** [re.match(r, s)]: a match anchored at the start of [s], which need not
    reach its end.  The result is the match object, here its groups. *)
Definition re_match (r : regex) (s : string) : option groups_t :=
  rmatch r 0 s ∅ (fun _ _ g => Some g).

(** [match.groups()] of a pattern with two groups. *)
Definition groups2 (m : groups_t) : option string * option string :=
  (m !! 1, m !! 2).

(** *** What a match means

    [sem r pos x rest g g']: at position [pos], with [x +:+ rest] left
    of the subject, [r] can consume [x] and turn the groups [g] into
    [g'].  [star P] is any number of further non-empty iterations. *)
Inductive star (P : nat -> string -> string -> groups_t -> groups_t -> Prop)
    : nat -> string -> string -> groups_t -> groups_t -> Prop :=
| star_stop pos rest g : star P pos "" rest g g
| star_step pos x1 x2 rest g g1 g' :
    P pos x1 (x2 +:+ rest) g g1 ->
    x1 <> "" ->
    star P (pos + String.length x1) x2 rest g1 g' ->
    star P pos (x1 +:+ x2) rest g g'.

Definition sem_char (p : ascii -> bool) (x : string) (g g' : groups_t) : Prop :=
  exists c, x = String c "" /\ p c = true /\ g' = g.

Definition sem_codepoint (p : N -> bool) (x : string) (g g' : groups_t) : Prop :=
  exists cp, Utf8.encodes x cp /\ p cp = true /\ g' = g.

Fixpoint sem (r : regex) (pos : nat) (x rest : string) (g g' : groups_t)
    : Prop :=
  match r with
  | Eps => x = "" /\ g' = g
  | Bol => x = "" /\ pos = 0 /\ g' = g
  | Eol => x = "" /\ (rest = "" \/ rest = String "010" "") /\ g' = g
  | Chr c => sem_char (Ascii.eqb c) x g g'
  | Range lo hi => sem_char (in_range lo hi) x g g'
  | Digit => sem_codepoint is_decimal x g g'
  | Cat r1 r2 =>
      exists x1 x2 g1,
        x = x1 +:+ x2
        /\ sem r1 pos x1 (x2 +:+ rest) g g1
        /\ sem r2 (pos + String.length x1) x2 rest g1 g'
  | Alt r1 r2 => sem r1 pos x rest g g' \/ sem r2 pos x rest g g'
  | Plus r1 =>
      exists x1 x2 g1,
        x = x1 +:+ x2
        /\ sem r1 pos x1 (x2 +:+ rest) g g1
        /\ star (sem r1) (pos + String.length x1) x2 rest g1 g'
  | Group n r1 =>
      exists g1, sem r1 pos x rest g g1 /\ g' = <[n := x]> g1
  end.

End Unicode.

End Re.

(** ** [os.path.join] and [os.walk] *)

Module Os.

Definition startswith (p s : string) : bool := String.prefix p s.

Fixpoint endswith_sep (s : string) : bool :=
  match s with
  | EmptyString => false
  | String c EmptyString => Ascii.eqb c "/"
  | String _ s' => endswith_sep s'
  end.

(** [posixpath.join(a, b)] *)
Definition path_join (a b : string) : string :=
  if startswith "/" b then b
  else if String.eqb a "" || endswith_sep a then a +:+ b
  else a +:+ "/" +:+ b.

#[local] Set Warnings "-register-all".

(** A directory: its sub-directories and its other entries, each in the
    order in which [os.scandir] lists them. *)
Inductive tree :=
| Dir (subdirs : list (string * tree)) (nondirs : list string).

(** [os.walk(top)], top-down: the directory itself, then each
    sub-directory in turn. *)
Fixpoint walk (top : string) (t : tree)
    : list (string * list string * list string) :=
  match t with
  | Dir subdirs nondirs =>
      (top, map fst subdirs, nondirs)
      :: (fix walk_subdirs (l : list (string * tree)) :=
            match l with
            | [] => []
            | (dirname, t') :: l' =>
                walk (path_join top dirname) t' ++ walk_subdirs l'
            end) subdirs
  end.

(** The sub-directories of a tree, at every depth, have names that do
    not start with the separator, as the entries of a directory do. *)
Fixpoint relative_names (t : tree) : Prop :=
  match t with
  | Dir subdirs _ =>
      (fix all (l : list (string * tree)) : Prop :=
         match l with
         | [] => True
         | (dirname, t') :: l' =>
             startswith "/" dirname = false /\ relative_names t' /\ all l'
         end) subdirs
  end.

(** *** The files of a tree, without walking it

    [in_tree t dirs f]: going down from the directory [t] through the
    sub-directories named [dirs], one arrives at a directory that holds
    the file [f]. *)
Inductive in_tree : tree -> list string -> string -> Prop :=
| in_tree_here subdirs nondirs f :
    f ∈ nondirs -> in_tree (Dir subdirs nondirs) [] f
| in_tree_below subdirs nondirs dirname t' dirs f :
    (dirname, t') ∈ subdirs ->
    in_tree t' dirs f ->
    in_tree (Dir subdirs nondirs) (dirname :: dirs) f.

(** The path of the directory reached from [top] through [dirs]. *)
Definition dir_path (top : string) (dirs : list string) : string :=
  fold_left path_join dirs top.

(** The number of files in a tree, at every depth. *)
Fixpoint count_files (t : tree) : nat :=
  match t with
  | Dir subdirs nondirs =>
      List.length nondirs
      + (fix below (l : list (string * tree)) : nat :=
           match l with
           | [] => 0
           | (_, t') :: l' => count_files t' + below l'
           end) subdirs
  end.

(** The files of a list of [(root, dirs, files)] triples, each with its
    [root], in the order of the list. *)
Definition listed (entries : list (string * list string * list string))
    : list (string * string) :=
  flat_map (fun entry => let '(root, _, files) := entry in map (pair root) files)
    entries.

(** [os.walk] yields nothing when [top] is not a directory. *)
Definition os_walk (disk : string -> option tree) (top : string)
    : list (string * list string * list string) :=
  match disk top with
  | None => []
  | Some t => walk top t
  end.

End Os.

(** ** Python dictionaries, [pathlib] paths and [pandas] tables *)

Module Py.

(** A [dict] keeps its keys in insertion order; assigning to a key that
    is present keeps the key's place. *)
Fixpoint dict_set {K V} `{EqDecision K} (k : K) (v : V) (d : list (K * V))
    : list (K * V) :=
  match d with
  | [] => [(k, v)]
  | (k', v') :: d' =>
      if decide (k = k') then (k, v) :: d' else (k', v') :: dict_set k v d'
  end.

(** A dictionary display [{k1: v1, ..., kn: vn}]. *)
Definition dict_of {K V} `{EqDecision K} (items : list (K * V)) : list (K * V) :=
  fold_left (fun d kv => dict_set (fst kv) (snd kv) d) items [].

Fixpoint dict_get {K V} `{EqDecision K} (d : list (K * V)) (k : K) : outcome V :=
  match d with
  | [] => Raise KeyError
  | (k', v) :: d' => if decide (k = k') then Ok v else dict_get d' k
  end.

Definition keys {K V} (d : list (K * V)) : list K := map fst d.

Definition values {K V} (d : list (K * V)) : list V := map snd d.

(** What the readers accept: a [str], or a [pathlib.Path] given by its
    parts. *)
Inductive pathlike :=
| Str (s : string)
| Path (parts : list string).

(** The components of a relative path written with [/]. *)
Fixpoint split_sep (s : string) (cur : string) : list string :=
  match s with
  | EmptyString => [String.rev cur]
  | String c s' =>
      if Ascii.eqb c "/" then String.rev cur :: split_sep s' ""
      else split_sep s' (String c cur)
  end.

(** [p / s] for a relative [s]. *)
Definition truediv (p : list string) (s : string) : list string :=
  p ++ split_sep s "".

(** A table cell: a string, an integer, or [None]. *)
Inductive cell :=
| CStr (s : string)
| CInt (z : Z)
| CNone.

Record DataFrame := mkDataFrame {
  columns : list string;
  rows : list (list cell)
}.

(** [pd.DataFrame.from_records(records, columns=cols)]: one row per
    record; a record whose length is not that of [cols] is refused. *)
Definition from_records (records : list (list cell)) (cols : list string)
    : outcome DataFrame :=
  if forallb (fun r => Nat.eqb (List.length r) (List.length cols)) records
  then Ok (mkDataFrame cols records)
  else Raise ValueError.

(** Row [i] of a table given by columns holds entry [i] of each column. *)
Definition transpose (n : nat) (cols : list (list cell)) : list (list cell) :=
  foldr (zip_with cons) (replicate n []) cols.

(** [pd.DataFrame(data)] for a dictionary of lists: the keys name the
    columns; lists of different lengths are refused. *)
Definition DataFrame_of_dict (data : list (string * list cell))
    : outcome DataFrame :=
  match data with
  | [] => Ok (mkDataFrame [] [])
  | (_, c0) :: _ =>
      if forallb (fun kc => Nat.eqb (List.length (snd kc)) (List.length c0)) data
      then Ok (mkDataFrame (keys data) (transpose (List.length c0) (values data)))
      else Raise ValueError
  end.

End Py.

(** ** The loaders *)

Module Loaders.

Import Py.

(** Folding a loop body that may raise. *)
Fixpoint ofold {A S} (body : S -> A -> outcome S) (l : list A) (acc : S)
    : outcome S :=
  match l with
  | [] => Ok acc
  | x :: l' => obind (body acc x) (ofold body l')
  end.

(** Applying [f] to each element in turn, stopping at the first
    exception. *)
Fixpoint otraverse {A B} (f : A -> outcome B) (l : list A) : outcome (list B) :=
  match l with
  | [] => Ok []
  | x :: l' => obind (f x) (fun y => obind (otraverse f l') (fun ys => Ok (y :: ys)))
  end.

(** The exception of the first computation of a sequence that raised. *)
Fixpoint first_raise {A} (rs : list (outcome A)) : option exn :=
  match rs with
  | [] => None
  | Ok _ :: rs' => first_raise rs'
  | Raise e :: _ => Some e
  end.

(** A computation without its value. *)
Definition void {A} (o : outcome A) : outcome unit := obind o (fun _ => Ok tt).

Notation "x <- m ;; k" := (obind m (fun x => k))
  (at level 100, m at next level, right associativity).

Section Loaders.

(** The decimal digits of the interpreter's Unicode database. *)
Variable is_decimal : N -> bool.

(** The spectrum type of [ramanalysis], and the numbers in its arrays. *)
Variables Spectrum Num Positions : Type.

(** The class methods of [RamanSpectrum] that read a file. *)
Variable from_horiba_txtfile : pathlike -> outcome Spectrum.
Variable from_renishaw_txtfile : pathlike -> outcome Spectrum.
Variable from_wasatch_csvfile : pathlike -> outcome Spectrum.
Variable from_generic_csvfile : pathlike -> outcome Spectrum.
Variable from_openraman_csvfiles :
  pathlike -> pathlike -> pathlike -> outcome Spectrum.

(** [ramanalysis.readers.read_renishaw_multipoint_txt]: the wavenumber
    axis, one row of intensities per point, and the positions. *)
Variable read_renishaw_multipoint_txt :
  pathlike -> outcome (list Num * list (list Num) * Positions).

(** The constructor [RamanSpectrum(wavenumbers_cm1, intensities)]. *)
Variable RamanSpectrum : list Num -> list Num -> outcome Spectrum.

(** [Path(__file__).parents[2]] *)
Variable REPO_ROOT_DIRECTORY : list string.

(** The directory tree found at a path, if it is a directory. *)
Variable disk : string -> option Os.tree.

Definition DATA_DIRECTORY : list string := truediv REPO_ROOT_DIRECTORY "data".

Definition record_of_key (k : string * Z) : list cell :=
  [CStr (fst k); CInt (snd k)].

(** The [filepaths] dictionary of [load_acetonitrile_spectra]. *)
Definition acetonitrile_filepaths : list (string * Z * list string) :=
  dict_of [
    (("horiba", 785%Z), truediv DATA_DIRECTORY "Horiba_MacroRAM/acetonitrile.txt");
    (("renishaw", 785%Z), truediv DATA_DIRECTORY "Renishaw_Qontor/acetonitrile_5x.txt");
    (("wasatch", 785%Z), truediv DATA_DIRECTORY "Wasatch_WP785X/acetonitrile.csv");
    (("openraman", 532%Z),
       truediv DATA_DIRECTORY "OpenRAMAN/acetonitrile_n_n_n_solid_10000_0_5.csv");
    (("wasatch", 532%Z), truediv DATA_DIRECTORY "Wasatch_WP532X/acetonitrile.csv")
  ].

Definition load_acetonitrile_spectra : outcome (list Spectrum * DataFrame) :=
  let filepaths := acetonitrile_filepaths in
  let openraman_neon_calibration :=
    truediv DATA_DIRECTORY "OpenRAMAN/neon_n_n_n_solid_10000_0_5.csv" in
  p0 <- dict_get filepaths ("horiba", 785%Z) ;;
  s0 <- from_horiba_txtfile (Path p0) ;;
  p1 <- dict_get filepaths ("renishaw", 785%Z) ;;
  s1 <- from_renishaw_txtfile (Path p1) ;;
  p2 <- dict_get filepaths ("wasatch", 785%Z) ;;
  s2 <- from_wasatch_csvfile (Path p2) ;;
  p3 <- dict_get filepaths ("openraman", 532%Z) ;;
  p3' <- dict_get filepaths ("openraman", 532%Z) ;;
  s3 <- from_openraman_csvfiles (Path p3) (Path openraman_neon_calibration)
          (Path p3') ;;
  p4 <- dict_get filepaths ("wasatch", 532%Z) ;;
  s4 <- from_generic_csvfile (Path p4) ;;
  let spectra := [s0; s1; s2; s3; s4] in
  dataframe <- from_records (map record_of_key (keys filepaths))
                 ["instrument"; "λ_nm"] ;;
  Ok (spectra, dataframe).

(** [intensities[0, :]]: the first row of a two-dimensional array. *)
Definition first_row (intensities : list (list Num)) : outcome (list Num) :=
  match intensities with
  | [] => Raise IndexError
  | row :: _ => Ok row
  end.

Definition load_cc124_tap_spectra : outcome (list Spectrum * DataFrame) :=
  (* Horiba *)
  let txt_filepath := truediv DATA_DIRECTORY "Horiba_MacroRAM/CC-124-TAP-2.txt" in
  horiba_spectrum <- from_horiba_txtfile (Path txt_filepath) ;;
  (* OpenRAMAN *)
  let csv_filepath :=
    truediv DATA_DIRECTORY "OpenRAMAN/CC-124_TAP_Pos-2-000_002.csv" in
  let openraman_calibration_0 :=
    truediv DATA_DIRECTORY "OpenRAMAN/neon_n_n_n_solid_10000_0_5.csv" in
  let openraman_calibration_1 :=
    truediv DATA_DIRECTORY "OpenRAMAN/acetonitrile_n_n_n_solid_10000_0_5.csv" in
  openraman_spectrum <-
    from_openraman_csvfiles (Path csv_filepath)
      (Path openraman_calibration_0) (Path openraman_calibration_1) ;;
  (* Renishaw *)
  let txt_filepath :=
    truediv DATA_DIRECTORY "Renishaw_Qontor/CC-124_TAP_plate_5x_3_points.txt" in
  scan <- read_renishaw_multipoint_txt (Path txt_filepath) ;;
  let '(wavenumbers_cm1, intensities, _positions) := scan in
  row <- first_row intensities ;;
  renishaw_spectrum <- RamanSpectrum wavenumbers_cm1 row ;;
  (* Wasatch 532 nm *)
  let csv_filepath :=
    truediv DATA_DIRECTORY "Wasatch_WP532X/CC-124_TAP_Pos-4-002_001.csv" in
  wasatch_532_spectrum <- from_generic_csvfile (Path csv_filepath) ;;
  (* Wasatch 785 nm *)
  let csv_filepath :=
    truediv DATA_DIRECTORY "Wasatch_WP785X/CC-124_TAP_WP-02071.csv" in
  wasatch_785_spectrum <- from_wasatch_csvfile (Path csv_filepath) ;;
  (* Compile spectra *)
  let mapped_spectra := dict_of [
    (("horiba", 785%Z), horiba_spectrum);
    (("renishaw", 785%Z), renishaw_spectrum);
    (("wasatch", 785%Z), wasatch_785_spectrum);
    (("openraman", 532%Z), openraman_spectrum);
    (("wasatch", 532%Z), wasatch_532_spectrum)
  ] in
  let spectra := values mapped_spectra in
  let spectrometer_info := keys mapped_spectra in
  dataframe <- from_records (map record_of_key spectrometer_info)
                 ["instrument"; "λ_nm"] ;;
  Ok (spectra, dataframe).

(** The [re.match] pattern of [load_chlamy_spectra]:
    [^([A-H](?:[1-9]|1[0-2]))-Site_(\d+)\.csv$], whose first group is
    [[A-H](?:[1-9]|1[0-2])]. *)
Definition well_regex : Re.regex :=
  Re.Cat (Re.Range "A" "H")
    (Re.Alt (Re.Range "1" "9") (Re.Cat (Re.Chr "1") (Re.Range "0" "2"))).

Definition site_regex : Re.regex :=
  Re.Cat Re.Bol
    (Re.Cat (Re.Group 1 well_regex)
       (Re.Cat (Re.lit "-Site_")
          (Re.Cat (Re.Group 2 (Re.Plus Re.Digit))
             (Re.Cat (Re.lit ".csv") Re.Eol)))).

(** The two tests that [load_chlamy_spectra] applies to a file name, in
    its order: the groups of the match when both pass. *)
Definition chlamy_site (filename : string)
    : option (option string * option string) :=
  if Fnmatch.fnmatch filename "*-Site_*.csv"
  then Re.groups2 <$> Re.re_match is_decimal site_regex filename
  else None.

(** *** File names of the form [<well>-Site_<n>.csv]

    Stated from the description of the pattern rather than from the
    code: a well is a letter from A to H followed by a number from 1 to
    12, and [<n>] is a non-empty string of digits, a digit being what
    [\d] stands for in a [str] pattern: a character that Unicode
    classifies as a decimal digit. *)
Definition well_letters : list ascii :=
  ["A"; "B"; "C"; "D"; "E"; "F"; "G"; "H"]%char.

Definition well_numbers : list string :=
  ["1"; "2"; "3"; "4"; "5"; "6"; "7"; "8"; "9"; "10"; "11"; "12"].

Definition is_well (w : string) : Prop :=
  exists c n, w = String c n /\ c ∈ well_letters /\ n ∈ well_numbers.

Inductive all_digits : string -> Prop :=
| all_digits_nil : all_digits ""
| all_digits_cons d cp n :
    Utf8.encodes d cp -> is_decimal cp = true -> all_digits n ->
    all_digits (d +:+ n).

Definition is_digit_string (n : string) : Prop := n <> "" /\ all_digits n.

Definition site_csv_name (name well n : string) : Prop :=
  is_well well /\ is_digit_string n
  /\ name = well +:+ "-Site_" +:+ n +:+ ".csv".

Definition cell_of_group (o : option string) : cell :=
  match o with
  | Some s => CStr s
  | None => CNone
  end.

(** The five lists that the loop of [load_chlamy_spectra] appends to. *)
Record chlamy_lists := mkLists {
  spectra : list Spectrum;
  instrument_data : list cell;
  wavelength_data : list cell;
  well_id_data : list cell;
  site_data : list cell
}.

(** The body of the inner loop, for one [filename] under [root]. *)
Definition chlamy_file (root : string) (acc : chlamy_lists) (filename : string)
    : outcome chlamy_lists :=
  let pattern := "*-Site_*.csv" in
  let reader := from_generic_csvfile in
  if Fnmatch.fnmatch filename pattern then
    let filepath := Os.path_join root filename in
    match Re.re_match is_decimal site_regex filename with
    | Some match_ =>
        let '(well_id, site) := Re.groups2 match_ in
        spectrum <- reader (Str filepath) ;;
        Ok (mkLists
              (spectra acc ++ [spectrum])
              (instrument_data acc ++ [CStr "wasatch"])
              (wavelength_data acc ++ [CInt 785])
              (well_id_data acc ++ [cell_of_group well_id])
              (site_data acc ++ [cell_of_group site]))
    | None => Ok acc
    end
  else Ok acc.

Definition load_chlamy_spectra (data_directory : string)
    : outcome (list Spectrum * DataFrame) :=
  acc <- ofold (fun acc entry =>
                  let '(root, _, files) := entry in
                  ofold (chlamy_file root) files acc)
           (Os.os_walk disk data_directory) (mkLists [] [] [] [] []) ;;
  let data := dict_of [
    ("instrument", instrument_data acc);
    ("λ_nm", wavelength_data acc);
    ("well_ID", well_id_data acc);
    ("site", site_data acc)
  ] in
  dataframe <- DataFrame_of_dict data ;;
  Ok (spectra acc, dataframe).

(** *** Notions used to state what the loaders return *)

(** The files met by the loop of [load_chlamy_spectra], in its order:
    each with the directory it was found in. *)
Definition walk_files (data_directory : string) : list (string * string) :=
  flat_map (fun entry => let '(root, _, files) := entry in map (pair root) files)
    (Os.os_walk disk data_directory).

(** Those of them that pass the two tests, with the groups captured. *)
Definition chlamy_selected (candidates : list (string * string))
    : list (string * string * (option string * option string)) :=
  omap (fun c => (fun grp => (c, grp)) <$> chlamy_site (snd c)) candidates.

(** The table expected for a list of selected files. *)
Definition chlamy_row
    (x : string * string * (option string * option string)) : list cell :=
  [CStr "wasatch"; CInt 785; cell_of_group (fst (snd x));
   cell_of_group (snd (snd x))].

(** Reading the selected files in order, stopping at the first failure. *)
Definition chlamy_read
    (x : string * string * (option string * option string))
    : outcome Spectrum :=
  from_generic_csvfile (Str (Os.path_join (fst (fst x)) (snd (fst x)))).

(** [s] is what the library made of the file [p]: through one of the
    reading class methods, or through the multipoint reader followed by
    the constructor on the first point. *)
Definition loaded_from (p : pathlike) (s : Spectrum) : Prop :=
  from_horiba_txtfile p = Ok s
  \/ from_renishaw_txtfile p = Ok s
  \/ from_wasatch_csvfile p = Ok s
  \/ from_generic_csvfile p = Ok s
  \/ (exists c1 c2, from_openraman_csvfiles p c1 c2 = Ok s)
  \/ (exists wavenumbers_cm1 intensities positions row,
        read_renishaw_multipoint_txt p
        = Ok (wavenumbers_cm1, intensities, positions)
        /\ intensities !! 0 = Some row
        /\ RamanSpectrum wavenumbers_cm1 row = Ok s).

(** The name of the directory that holds a file. *)
Definition parent_name (parts : list string) : option string :=
  last (removelast parts).

(** The data directory has one sub-directory per spectrometer; the
    [filepaths] of [load_acetonitrile_spectra] tell which spectrometer
    owns which.  The spectrometer of a file is the owner of the
    sub-directory it is in. *)
Definition spectrometer_of (parts : list string) : option (string * Z) :=
  fst <$> find (fun kv => bool_decide (parent_name (snd kv) = parent_name parts))
            acetonitrile_filepaths.

(** The spectrometers, in the order of the tables of the first two
    loaders, and that table. *)
Definition spectrometers : list (string * Z) :=
  [("horiba", 785%Z); ("renishaw", 785%Z); ("wasatch", 785%Z);
   ("openraman", 532%Z); ("wasatch", 532%Z)].

Definition spectrometer_table : DataFrame :=
  mkDataFrame ["instrument"; "λ_nm"] (map record_of_key spectrometers).

(** The five reading calls of [load_acetonitrile_spectra] and their
    results. *)
Definition acetonitrile_reads (s0 s1 s2 s3 s4 : Spectrum) : Prop :=
  from_horiba_txtfile
    (Path (truediv DATA_DIRECTORY "Horiba_MacroRAM/acetonitrile.txt")) = Ok s0
  /\ from_renishaw_txtfile
       (Path (truediv DATA_DIRECTORY "Renishaw_Qontor/acetonitrile_5x.txt"))
     = Ok s1
  /\ from_wasatch_csvfile
       (Path (truediv DATA_DIRECTORY "Wasatch_WP785X/acetonitrile.csv")) = Ok s2
  /\ from_openraman_csvfiles
       (Path (truediv DATA_DIRECTORY
                "OpenRAMAN/acetonitrile_n_n_n_solid_10000_0_5.csv"))
       (Path (truediv DATA_DIRECTORY "OpenRAMAN/neon_n_n_n_solid_10000_0_5.csv"))
       (Path (truediv DATA_DIRECTORY
                "OpenRAMAN/acetonitrile_n_n_n_solid_10000_0_5.csv"))
     = Ok s3
  /\ from_generic_csvfile
       (Path (truediv DATA_DIRECTORY "Wasatch_WP532X/acetonitrile.csv")) = Ok s4.

(** The reading calls of [load_cc124_tap_spectra] and their results,
    listed in the order of the spectra it returns. *)
Definition cc124_reads
    (horiba renishaw wasatch_785 openraman wasatch_532 : Spectrum) : Prop :=
  from_horiba_txtfile
    (Path (truediv DATA_DIRECTORY "Horiba_MacroRAM/CC-124-TAP-2.txt"))
  = Ok horiba
  /\ (exists wavenumbers_cm1 intensities positions row,
        read_renishaw_multipoint_txt
          (Path (truediv DATA_DIRECTORY
                   "Renishaw_Qontor/CC-124_TAP_plate_5x_3_points.txt"))
        = Ok (wavenumbers_cm1, intensities, positions)
        /\ intensities !! 0 = Some row
        /\ RamanSpectrum wavenumbers_cm1 row = Ok renishaw)
  /\ from_wasatch_csvfile
       (Path (truediv DATA_DIRECTORY "Wasatch_WP785X/CC-124_TAP_WP-02071.csv"))
     = Ok wasatch_785
  /\ from_openraman_csvfiles
       (Path (truediv DATA_DIRECTORY "OpenRAMAN/CC-124_TAP_Pos-2-000_002.csv"))
       (Path (truediv DATA_DIRECTORY "OpenRAMAN/neon_n_n_n_solid_10000_0_5.csv"))
       (Path (truediv DATA_DIRECTORY
                "OpenRAMAN/acetonitrile_n_n_n_solid_10000_0_5.csv"))
     = Ok openraman
  /\ from_generic_csvfile
       (Path (truediv DATA_DIRECTORY
                "Wasatch_WP532X/CC-124_TAP_Pos-4-002_001.csv"))
     = Ok wasatch_532.

(** The lists of [load_chlamy_spectra] after its loop: what was there,
    followed by one entry per selected file. *)
Definition extended (acc : chlamy_lists) (ss : list Spectrum)
    (sel : list (string * string * (option string * option string)))
    : chlamy_lists :=
  mkLists
    (spectra acc ++ ss)
    (instrument_data acc ++ map (fun _ => CStr "wasatch") sel)
    (wavelength_data acc ++ map (fun _ => CInt 785) sel)
    (well_id_data acc ++ map (fun x => cell_of_group (fst (snd x))) sel)
    (site_data acc ++ map (fun x => cell_of_group (snd (snd x))) sel).

Definition chlamy_table
    (sel : list (string * string * (option string * option string)))
    : DataFrame :=
  mkDataFrame ["instrument"; "λ_nm"; "well_ID"; "site"] (map chlamy_row sel).

(** A table of spectrometers runs parallel to a list of spectra: as many
    rows as spectra, and row [i] names the spectrometer of a file from
    which spectrum [i] was loaded. *)
Definition table_parallel (spectra : list Spectrum) (df : DataFrame) : Prop :=
  List.length (rows df) = List.length spectra
  /\ forall i s,
       spectra !! i = Some s ->
       exists instrument wavelength file,
         rows df !! i = Some [CStr instrument; CInt wavelength]
         /\ spectrometer_of file = Some (instrument, wavelength)
         /\ loaded_from (Path file) s.

(** The same for [load_chlamy_spectra], whose files all come from the
    Wasatch 785 nm instrument: row [i] also gives the well and the site
    in the name of the file from which spectrum [i] was loaded. *)
Definition chlamy_parallel (data_directory : string)
    (spectra : list Spectrum) (df : DataFrame) : Prop :=
  List.length (rows df) = List.length spectra
  /\ forall i s,
       spectra !! i = Some s ->
       exists root filename well site,
         rows df !! i
         = Some [CStr "wasatch"; CInt 785; CStr well; CStr site]
         /\ (root, filename) ∈ walk_files data_directory
         /\ site_csv_name filename well site
         /\ from_generic_csvfile (Str (Os.path_join root filename)) = Ok s.

(** The library calls of [load_acetonitrile_spectra], in the order in
    which it makes them. *)
Definition acetonitrile_calls : list (outcome Spectrum) :=
  [ from_horiba_txtfile
      (Path (truediv DATA_DIRECTORY "Horiba_MacroRAM/acetonitrile.txt"));
    from_renishaw_txtfile
      (Path (truediv DATA_DIRECTORY "Renishaw_Qontor/acetonitrile_5x.txt"));
    from_wasatch_csvfile
      (Path (truediv DATA_DIRECTORY "Wasatch_WP785X/acetonitrile.csv"));
    from_openraman_csvfiles
      (Path (truediv DATA_DIRECTORY
               "OpenRAMAN/acetonitrile_n_n_n_solid_10000_0_5.csv"))
      (Path (truediv DATA_DIRECTORY "OpenRAMAN/neon_n_n_n_solid_10000_0_5.csv"))
      (Path (truediv DATA_DIRECTORY
               "OpenRAMAN/acetonitrile_n_n_n_solid_10000_0_5.csv"));
    from_generic_csvfile
      (Path (truediv DATA_DIRECTORY "Wasatch_WP532X/acetonitrile.csv")) ].

(** The multipoint scan of [load_cc124_tap_spectra]. *)
Definition cc124_scan : outcome (list Num * list (list Num) * Positions) :=
  read_renishaw_multipoint_txt
    (Path (truediv DATA_DIRECTORY
             "Renishaw_Qontor/CC-124_TAP_plate_5x_3_points.txt")).

(** The steps of [load_cc124_tap_spectra] that can raise, in the order in
    which it takes them: the Horiba and OpenRAMAN readers, the multipoint
    reader, the indexing of its first row, the constructor, and the two
    Wasatch readers. *)
Definition cc124_steps : list (outcome unit) :=
  [ void (from_horiba_txtfile
            (Path (truediv DATA_DIRECTORY "Horiba_MacroRAM/CC-124-TAP-2.txt")));
    void (from_openraman_csvfiles
            (Path (truediv DATA_DIRECTORY
                     "OpenRAMAN/CC-124_TAP_Pos-2-000_002.csv"))
            (Path (truediv DATA_DIRECTORY
                     "OpenRAMAN/neon_n_n_n_solid_10000_0_5.csv"))
            (Path (truediv DATA_DIRECTORY
                     "OpenRAMAN/acetonitrile_n_n_n_solid_10000_0_5.csv")));
    void cc124_scan;
    void (scan <- cc124_scan ;; first_row (snd (fst scan)));
    void (scan <- cc124_scan ;;
          row <- first_row (snd (fst scan)) ;;
          RamanSpectrum (fst (fst scan)) row);
    void (from_generic_csvfile
            (Path (truediv DATA_DIRECTORY
                     "Wasatch_WP532X/CC-124_TAP_Pos-4-002_001.csv")));
    void (from_wasatch_csvfile
            (Path (truediv DATA_DIRECTORY
                     "Wasatch_WP785X/CC-124_TAP_WP-02071.csv"))) ].

End Loaders.

Arguments mkLists {Spectrum} _ _ _ _ _.
Arguments spectra {Spectrum} _.
Arguments instrument_data {Spectrum} _.
Arguments wavelength_data {Spectrum} _.
Arguments well_id_data {Spectrum} _.
Arguments site_data {Spectrum} _.
Arguments first_row {Num} _.
Arguments extended {Spectrum} _ _ _.
Arguments chlamy_read {Spectrum} _ _.
Arguments chlamy_file _ {Spectrum} _ _ _ _.
Arguments load_chlamy_spectra _ {Spectrum} _ _ _.
Arguments chlamy_parallel _ {Spectrum} _ _ _ _ _.

End Loaders.

(** ** Sample inputs *)

Module Sample.

Import Tar Py.

(** An archive at [a.tar] whose only member is the regular file [x], on an
    otherwise empty disk. *)
Definition one_member_world (Kw : Type) : World Kw :=
  mkWorld {[ "a.tar" := {[ "x" := RegFile "data" ]} ]} ∅ [].

(** An archive with two regular files, next to a file already on disk. *)
Definition two_member_world (Kw : Type) : World Kw :=
  mkWorld {[ "b.tar" := {[ "x" := RegFile "one"; "y" := RegFile "two" ]} ]}
    {[ "notes.txt" := "kept" ]} [].

(** A way of naming temporary files: some name not in use. *)
Definition tmp_name (fs : gmap string string) : string := fresh (dom fs).

(** A callable that returns the bytes of the files it is given. *)
Fixpoint read_paths (paths : list string) (fs : gmap string string)
    : outcome (list string) :=
  match paths with
  | [] => Ok []
  | p :: paths' =>
      match fs !! p with
      | None => Raise FileNotFoundError
      | Some data => obind (read_paths paths' fs) (fun ds => Ok (data :: ds))
      end
  end.

Definition read_all : callable unit (list string) :=
  fun args _ fs => read_paths args fs.

(** Readers that answer with the path they were given. *)
Definition show_path (p : pathlike) : string :=
  match p with
  | Str s => s
  | Path parts => String.concat "/" parts
  end.

Definition reader (tag : string) (p : pathlike) : outcome string :=
  Ok (tag +:+ show_path p).

Definition reader3 (tag : string) (p c1 c2 : pathlike) : outcome string :=
  Ok (tag +:+ show_path p).

(** A multipoint scan of three points over two wavenumbers. *)
Definition scan (p : pathlike) : outcome (list Z * list (list Z) * unit) :=
  Ok ([100; 200], [[1; 2]; [3; 4]; [5; 6]], tt)%Z.

Definition spectrum_of (wavenumbers_cm1 intensities : list Z) : outcome string :=
  if decide (intensities = [1; 2]%Z) then Ok "first point"
  else Ok "another point".

Definition repo_root : list string := ["/"; "repo"].

(** A plate directory with two site files, one of them in a
    sub-directory, and two files that are not site files. *)
Definition plate (path : string) : option Os.tree :=
  if String.eqb path "plate" then
    Some (Os.Dir
            [("day1", Os.Dir [] ["B12-Site_33.csv"; "B13-Site_1.csv"])]
            ["A1-Site_0.csv"; "readme.txt"])
  else None.

(** An archive whose member [d] is a directory, next to a regular file. *)
Definition dir_member_world (Kw : Type) : World Kw :=
  mkWorld {[ "c.tar" := {[ "d" := NotAFile; "x" := RegFile "data" ]} ]}
    {[ "notes.txt" := "kept" ]} [].

(** A reader that cannot read anything. *)
Definition unreadable (p : pathlike) : outcome string :=
  Raise (LibraryError "unreadable").

(** A reader that reads only under [plate]. *)
Definition plate_reader (p : pathlike) : outcome string :=
  match p with
  | Str s => if String.prefix "plate" s then reader "generic:" p else unreadable p
  | Path _ => unreadable p
  end.

(** A multipoint scan without points. *)
Definition empty_scan (p : pathlike) : outcome (list Z * list (list Z) * unit) :=
  Ok ([100; 200], [], tt)%Z.

(** A digit table: the ASCII digits and the Arabic-Indic digits, U+0660
    to U+0669. *)
Definition decimal (cp : N) : bool :=
  ((48 <=? cp) && (cp <=? 57) || (1632 <=? cp) && (cp <=? 1641))%N.

(** A plate directory in which one site is numbered in Arabic-Indic
    digits, and one name has a digit of no script after [Site_]. *)
Definition plate_ar (path : string) : option Os.tree :=
  if String.eqb path "plate" then
    Some (Os.Dir
            [("day1", Os.Dir [] ["B12-Site_33.csv"; "B13-Site_1.csv"])]
            ["A1-Site_٣.csv"; "A2-Site_x.csv"; "readme.txt"])
  else None.

(** A directory in which no file is a site file. *)
Definition notes (path : string) : option Os.tree :=
  if String.eqb path "notes" then
    Some (Os.Dir [("old", Os.Dir [] ["I1-Site_1.csv"])] ["readme.txt"])
  else None.

End Sample.

(** * Properties *)

(** ** Strings *)

Section Strings.

Lemma append_nil_l (s : string) : "" +:+ s = s.
Proof. reflexivity. Qed.

Lemma append_cons (c : ascii) (s t : string) :
  String c s +:+ t = String c (s +:+ t).
Proof. reflexivity. Qed.

Lemma append_nil_r (s : string) : s +:+ "" = s.
Proof.
  induction s as [|c s IH]; [done|]. by rewrite append_cons, IH.
Qed.

Lemma append_assoc (a b c : string) : (a +:+ b) +:+ c = a +:+ (b +:+ c).
Proof.
  induction a as [|x a IH]; [done|]. by rewrite !append_cons, IH.
Qed.

Lemma length_append (a b : string) :
  String.length (a +:+ b) = String.length a + String.length b.
Proof.
  induction a as [|x a IH]; [done|]. rewrite append_cons. simpl. by rewrite IH.
Qed.

Lemma substring_prefix (x rest : string) :
  substring 0 (String.length x) (x +:+ rest) = x.
Proof.
  induction x as [|c x IH].
  - rewrite append_nil_l. simpl. by destruct rest.
  - rewrite append_cons. simpl. by rewrite IH.
Qed.

End Strings.

(** ** Characters *)

Section Characters.

Import Utf8.

(** What [decode] reads is a non-empty prefix of the string, and it reads
    the same whatever follows that prefix. *)
Lemma decode_inv (s : string) cp x r :
  decode s = Some (cp, x, r) ->
  s = x +:+ r /\ x <> "" /\ forall r', decode (x +:+ r') = Some (cp, x, r').
Proof.
  unfold decode.
  destruct s as [|b0 s]; [done|]. cbv zeta.
  destruct (N_of_ascii b0 <? 128)%N eqn:H1.
  { intros [= <- <- <-]. repeat split; [done|]. intros r'.
    cbv [String.append]. by rewrite H1. }
  destruct (N_of_ascii b0 <? 224)%N eqn:H2.
  { destruct s as [|b1 s]; [done|].
    destruct (continuation b1) as [x1|] eqn:Hx1; [|done].
    cbn [mbind option_bind].
    destruct (_ && _) eqn:Hc; [|done].
    intros [= <- <- <-]. repeat split; [done|]. intros r'.
    cbv [String.append]. rewrite H1, H2, Hx1. cbn [mbind option_bind].
    by rewrite Hc. }
  destruct (N_of_ascii b0 <? 240)%N eqn:H3.
  { destruct s as [|b1 [|b2 s]]; [done..|].
    destruct (continuation b1) as [x1|] eqn:Hx1; [|done].
    destruct (continuation b2) as [x2|] eqn:Hx2; [|done].
    cbn [mbind option_bind].
    destruct (_ && _) eqn:Hc; [|done].
    intros [= <- <- <-]. repeat split; [done|]. intros r'.
    cbv [String.append]. rewrite H1, H2, H3, Hx1, Hx2. cbn [mbind option_bind].
    by rewrite Hc. }
  destruct s as [|b1 [|b2 [|b3 s]]]; [done..|].
  destruct (continuation b1) as [x1|] eqn:Hx1; [|done].
  destruct (continuation b2) as [x2|] eqn:Hx2; [|done].
  destruct (continuation b3) as [x3|] eqn:Hx3; [|done].
  cbn [mbind option_bind].
  destruct (_ && _) eqn:Hc; [|done].
  intros [= <- <- <-]. repeat split; [done|]. intros r'.
  cbv [String.append]. rewrite H1, H2, H3, Hx1, Hx2, Hx3. cbn [mbind option_bind].
  by rewrite Hc.
Qed.

Lemma decode_encodes (s : string) cp x r :
  decode s = Some (cp, x, r) -> s = x +:+ r /\ encodes x cp.
Proof.
  intros H. apply decode_inv in H as (-> & _ & H). split; [done|].
  unfold encodes. by rewrite <- (append_nil_r x) at 1.
Qed.

Lemma encodes_nonempty (x : string) cp : encodes x cp -> x <> "".
Proof. intros H. by apply decode_inv in H as (_ & ? & _). Qed.

Lemma encodes_append (x : string) cp (r : string) :
  encodes x cp -> decode (x +:+ r) = Some (cp, x, r).
Proof. intros H. apply decode_inv in H as (_ & _ & H). apply H. Qed.

(** An ASCII character is its own encoding. *)
Lemma decode_ascii (c : ascii) (s : string) :
  (N_of_ascii c < 128)%N -> decode (String c s) = Some (N_of_ascii c, String c "", s).
Proof. intros H. unfold decode. apply N.ltb_lt in H. by rewrite H. Qed.

End Characters.

(** ** The regular-expression matcher *)

Section Matcher.

Import Re.

Variable is_decimal : N -> bool.

#[local] Abbreviation rmatch := (Re.rmatch is_decimal).
#[local] Abbreviation sem := (Re.sem is_decimal).

(** A successful run of [one_char] consumed one character accepted by
    the class and went on with the continuation. *)
Lemma one_char_sound (p : ascii -> bool) pos s g k res :
  one_char p pos s g k = Some res ->
  exists x rest g',
    s = x +:+ rest /\ sem_char p x g g'
    /\ k (pos + String.length x) rest g' = Some res.
Proof.
  unfold one_char. destruct s as [|c s]; [done|].
  destruct (p c) eqn:Hp; [|done]. intros Hk.
  exists (String c ""), s, g. simpl. rewrite Nat.add_1_r.
  repeat split; try done. by exists c.
Qed.

Lemma one_codepoint_sound (p : N -> bool) pos s g k res :
  one_codepoint p pos s g k = Some res ->
  exists x rest g',
    s = x +:+ rest /\ sem_codepoint p x g g'
    /\ k (pos + String.length x) rest g' = Some res.
Proof.
  unfold one_codepoint.
  destruct (Utf8.decode s) as [[[cp x] rest]|] eqn:Hdec; [|done].
  destruct (p cp) eqn:Hp; [|done]. intros Hk.
  apply decode_encodes in Hdec as [-> Hx].
  exists x, rest, g. repeat split; try done. by exists cp.
Qed.

(** Soundness of greedy repetition, given soundness of one iteration. *)
Lemma greedy_sound (m : matcher)
    (P : nat -> string -> string -> groups_t -> groups_t -> Prop) :
  (forall pos s g k res,
     m pos s g k = Some res ->
     exists x rest g',
       s = x +:+ rest /\ P pos x rest g g'
       /\ k (pos + String.length x) rest g' = Some res) ->
  forall fuel pos s g k res,
    greedy m fuel pos s g k = Some res ->
    exists x rest g',
      s = x +:+ rest /\ star P pos x rest g g'
      /\ k (pos + String.length x) rest g' = Some res.
Proof.
  intros Hm. induction fuel as [|fuel IH]; intros pos s g k res; simpl.
  - intros Hk. exists "", s, g. simpl. rewrite Nat.add_0_r.
    repeat split; try done. constructor.
  - destruct (m pos s g _) as [r|] eqn:Hrun.
    + intros [= ->]. apply Hm in Hrun as (x1 & rest1 & g1 & -> & HP & Hk).
      destruct (Nat.ltb pos (pos + String.length x1)) eqn:Hlt; [|done].
      apply IH in Hk as (x2 & rest & g' & -> & Hstar & Hk).
      exists (x1 +:+ x2), rest, g'. rewrite append_assoc. split; [done|].
      split.
      * econstructor; [exact HP | | exact Hstar].
        intros ->. simpl in Hlt. rewrite Nat.add_0_r in Hlt.
        by rewrite Nat.ltb_irrefl in Hlt.
      * by rewrite length_append, Nat.add_assoc.
    + intros Hk. exists "", s, g. simpl. rewrite Nat.add_0_r.
      repeat split; try done. constructor.
Qed.

(** Soundness of the matcher: whatever [rmatch] answers, it answers
    through a match of [r] in the sense of [sem], followed by a
    successful continuation. *)
Lemma rmatch_sound (r : regex) :
  forall pos s g k res,
    rmatch r pos s g k = Some res ->
    exists x rest g',
      s = x +:+ rest /\ sem r pos x rest g g'
      /\ k (pos + String.length x) rest g' = Some res.
Proof.
  induction r as [| | |c|lo hi| |r1 IH1 r2 IH2|r1 IH1 r2 IH2|r1 IH1|n r1 IH1];
    intros pos s g k res; simpl.
  - intros Hk. exists "", s, g. simpl. by rewrite Nat.add_0_r.
  - destruct (Nat.eqb pos 0) eqn:Hpos; [|done]. intros Hk.
    apply Nat.eqb_eq in Hpos.
    exists "", s, g. simpl. by rewrite Nat.add_0_r.
  - intros Hk. exists "", s, g. simpl. rewrite Nat.add_0_r.
    destruct s as [|c [|c' s]]; try done.
    + repeat split; auto.
    + destruct (Ascii.eqb_spec c "010") as [->|]; [|done].
      repeat split; auto.
  - apply one_char_sound.
  - apply one_char_sound.
  - apply one_codepoint_sound.
  - intros Hrun.
    apply IH1 in Hrun as (x1 & rest1 & g1 & -> & H1 & Hrun).
    apply IH2 in Hrun as (x2 & rest & g' & -> & H2 & Hk).
    exists (x1 +:+ x2), rest, g'. rewrite append_assoc.
    split; [done|]. split.
    + by exists x1, x2, g1.
    + by rewrite length_append, Nat.add_assoc.
  - destruct (rmatch r1 pos s g k) as [r|] eqn:Hrun.
    + intros [= ->]. apply IH1 in Hrun as (x & rest & g' & -> & H1 & Hk).
      exists x, rest, g'. repeat split; try done. by left.
    + intros Hrun2. apply IH2 in Hrun2 as (x & rest & g' & -> & H2 & Hk).
      exists x, rest, g'. repeat split; try done. by right.
  - intros Hrun.
    apply IH1 in Hrun as (x1 & rest1 & g1 & -> & H1 & Hrun).
    apply (greedy_sound _ _ IH1) in Hrun as (x2 & rest & g' & -> & H2 & Hk).
    exists (x1 +:+ x2), rest, g'. rewrite append_assoc.
    split; [done|]. split.
    + by exists x1, x2, g1.
    + by rewrite length_append, Nat.add_assoc.
  - intros Hrun.
    apply IH1 in Hrun as (x & rest & g1 & -> & H1 & Hk).
    exists x, rest, (<[n := x]> g1). split; [done|]. split.
    + by exists g1.
    + replace (pos + String.length x - pos) with (String.length x) in Hk by lia.
      by rewrite substring_prefix in Hk.
Qed.

End Matcher.


(** ** File names accepted by [load_chlamy_spectra] *)

Section SiteNames.

Import Re Fnmatch Loaders.

Variable is_decimal : N -> bool.

#[local] Abbreviation rmatch := (Re.rmatch is_decimal).
#[local] Abbreviation sem := (Re.sem is_decimal).
#[local] Abbreviation re_match := (Re.re_match is_decimal).
#[local] Abbreviation no_digit_head := (Re.no_digit_head is_decimal).
#[local] Abbreviation all_digits := (Loaders.all_digits is_decimal).
#[local] Abbreviation is_digit_string := (Loaders.is_digit_string is_decimal).
#[local] Abbreviation site_csv_name := (Loaders.site_csv_name is_decimal).
#[local] Abbreviation chlamy_site := (Loaders.chlamy_site is_decimal).

Lemma in_range_letters (c : ascii) :
  in_range "A" "H" c = bool_decide (c ∈ well_letters).
Proof. by destruct c as [[] [] [] [] [] [] [] []]. Qed.

Lemma in_range_19 (c : ascii) :
  in_range "1" "9" c = true -> String c "" ∈ well_numbers.
Proof.
  destruct c as [[] [] [] [] [] [] [] []]; try discriminate; intros _;
    apply (bool_decide_unpack _); by vm_compute.
Qed.

Lemma in_range_02 (c : ascii) :
  in_range "0" "2" c = true -> String "1" (String c "") ∈ well_numbers.
Proof.
  destruct c as [[] [] [] [] [] [] [] []]; try discriminate; intros _;
    apply (bool_decide_unpack _); by vm_compute.
Qed.

(** A literal consumes itself and nothing else. *)
Lemma sem_lit (t : string) :
  forall pos x rest g g', sem (lit t) pos x rest g g' -> x = t /\ g' = g.
Proof.
  induction t as [|c t IH]; intros pos x rest g g'; simpl.
  - tauto.
  - intros (x1 & x2 & g1 & -> & (d & -> & Hd & ->) & Hrest).
    apply IH in Hrest as [-> ->].
    by destruct (Ascii.eqb_spec c d) as [->|].
Qed.

Lemma rmatch_lit (t : string) :
  forall pos s g k,
    rmatch (lit t) pos (t +:+ s) g k = k (pos + String.length t) s g.
Proof.
  induction t as [|c t IH]; intros pos s g k.
  - simpl. by rewrite Nat.add_0_r.
  - rewrite append_cons. simpl. rewrite Ascii.eqb_refl, IH.
    by replace (S pos + String.length t) with (pos + S (String.length t)) by lia.
Qed.

(** Further iterations of [\d] consume digits and capture nothing. *)
Lemma star_digits pos x rest g g' :
  star (sem Digit) pos x rest g g' -> all_digits x /\ g' = g.
Proof.
  induction 1 as [|pos x1 x2 rest g g1 g' (cp & Hx & Hc & ->) _ _ [IH ->]].
  - split; [constructor | done].
  - split; [|done]. by econstructor.
Qed.

Lemma append_nonempty (a b : string) : a <> "" -> a +:+ b <> "".
Proof. by destruct a. Qed.

Lemma sem_well pos x rest g g' :
  sem well_regex pos x rest g g' -> is_well x /\ g' = g.
Proof.
  unfold well_regex. simpl.
  intros (x1 & x2 & g1 & -> & (c & -> & Hc & ->) & Hnum).
  rewrite in_range_letters in Hc. apply bool_decide_eq_true in Hc.
  destruct Hnum as [(d & -> & Hd & ->)
                   |(y1 & y2 & g2 & -> & (d1 & -> & Hd1 & ->) & (d2 & -> & Hd2 & ->))].
  - split; [|done]. exists c, (String d ""). split; [done|].
    split; [done|]. by apply in_range_19.
  - split; [|done]. apply Ascii.eqb_eq in Hd1. subst d1.
    exists c, (String "1" (String d2 "")). split; [done|].
    split; [done|]. by apply in_range_02.
Qed.

Lemma re_match_site_sound name m :
  re_match site_regex name = Some m ->
  exists w n tail,
    is_well w /\ is_digit_string n
    /\ name = w +:+ "-Site_" +:+ n +:+ ".csv" +:+ tail
    /\ (tail = "" \/ tail = String "010" "")
    /\ m = <[2 := n]> (<[1 := w]> ∅).
Proof.
  unfold re_match. intros H.
  apply rmatch_sound in H as (x & rest & g' & -> & Hsem & [= <-]).
  unfold site_regex in Hsem. cbn [sem] in Hsem.
  destruct Hsem as (x1 & x2 & g1 & -> & (-> & _ & ->) & Hsem).
  destruct Hsem as (w & x4 & g2 & -> & (g3 & Hw & ->) & Hsem).
  apply sem_well in Hw as [Hw ->].
  destruct Hsem as (x5 & x6 & g3 & -> & Hlit & Hsem).
  apply sem_lit in Hlit as [-> ->].
  destruct Hsem as (n & x8 & g4 & -> & (g5 & Hn & ->) & Hsem).
  destruct Hn as (n1 & n2 & g6 & -> & (cp & Hd & Hcp & ->) & Hstar).
  apply (star_digits _ _ _ _ _) in Hstar as [Hds ->].
  destruct Hsem as (x9 & x10 & g7 & -> & Hlit & -> & Htail & ->).
  apply sem_lit in Hlit as [-> ->].
  exists w, (n1 +:+ n2), rest.
  split; [done|]. split.
  { split; [by eapply append_nonempty, encodes_nonempty | by econstructor]. }
  split; [|done].
  rewrite append_nil_l, append_nil_r. by rewrite !append_assoc.
Qed.

Lemma greedy_digits (n : string) :
  all_digits n ->
  forall fuel pos rest g k res,
    String.length n <= fuel ->
    no_digit_head rest ->
    k (pos + String.length n) rest g = Some res ->
    greedy (one_codepoint is_decimal) fuel pos (n +:+ rest) g k = Some res.
Proof.
  induction 1 as [|d cp n Hd Hcp Hds IH];
    intros fuel pos rest g k res Hfuel Hrest Hk.
  - rewrite append_nil_l. simpl in Hk. rewrite Nat.add_0_r in Hk.
    destruct fuel as [|fuel]; simpl; [done|].
    unfold one_codepoint. unfold Re.no_digit_head in Hrest.
    destruct (Utf8.decode rest) as [[[cp x] r]|]; [by rewrite Hrest | done].
  - assert (Hlen : 0 < String.length d).
    { apply encodes_nonempty in Hd. destruct d; [done | simpl; lia]. }
    rewrite length_append in Hfuel, Hk. rewrite append_assoc.
    destruct fuel as [|fuel]; [lia|].
    simpl. unfold one_codepoint at 1.
    rewrite (encodes_append _ _ _ Hd), Hcp.
    assert (Hlt : Nat.ltb pos (pos + String.length d) = true)
      by (apply Nat.ltb_lt; lia).
    rewrite Hlt. rewrite (IH fuel (pos + String.length d) rest g k res); try done.
    + lia.
    + by rewrite <- Nat.add_assoc.
Qed.

Lemma rmatch_well (c : ascii) (num rest : string) pos g (k : cont) :
  c ∈ well_letters -> num ∈ well_numbers ->
  (forall p d s' g', d <> "-"%char -> k p (String d s') g' = None) ->
  rmatch well_regex pos (String c num +:+ String "-" rest) g k
  = k (pos + String.length (String c num)) (String "-" rest) g.
Proof.
  intros Hc Hnum Hdash. unfold well_regex. rewrite append_cons.
  cbn [rmatch]. unfold one_char at 1.
  rewrite in_range_letters, bool_decide_eq_true_2 by done.
  unfold well_numbers in Hnum.
  repeat (apply elem_of_cons in Hnum as [->|Hnum]);
    [..|by apply elem_of_nil in Hnum].
  all: rewrite ?append_cons, ?append_nil_l; simpl.
  all: rewrite ?Hdash by done.
  all: rewrite ?Nat.add_succ_r, ?Nat.add_0_r.
  all: by destruct (k _ _ _).
Qed.

Lemma site_groups_insert (w n : string) :
  groups2 (<[2 := n]> (<[1 := w]> ∅)) = (Some w, Some n).
Proof.
  unfold groups2. by simplify_map_eq.
Qed.

(** The full stop, U+002E, is not a decimal digit. *)
Hypothesis full_stop_not_decimal : is_decimal 46 = false.

Lemma re_match_site_complete (w n : string) :
  is_well w -> is_digit_string n ->
  re_match site_regex (w +:+ "-Site_" +:+ n +:+ ".csv")
  = Some (<[2 := n]> (<[1 := w]> ∅)).
Proof.
  intros (c & num & -> & Hc & Hnum) [Hne Hds].
  destruct Hds as [|d cp n Hd Hcp Hds]; [done|]. clear Hne.
  unfold Re.re_match, site_regex. cbn [Re.rmatch Nat.eqb].
  change ("-Site_" +:+ (d +:+ n) +:+ ".csv")
    with (String "-" ("Site_" +:+ (d +:+ n) +:+ ".csv")).
  rewrite rmatch_well; try done.
  - change (String "-" ("Site_" +:+ (d +:+ n) +:+ ".csv"))
      with ("-Site_" +:+ (d +:+ n) +:+ ".csv").
    rewrite rmatch_lit. rewrite append_assoc. unfold one_codepoint at 1.
    rewrite (encodes_append _ _ _ Hd), Hcp.
    apply greedy_digits; [done | rewrite length_append; lia | |].
    { unfold Re.no_digit_head.
      change (Utf8.decode ".csv") with (Some (46%N, ".", "csv")).
      exact full_stop_not_decimal. }
    cbv beta.
    rewrite Nat.sub_0_r, Nat.add_0_l, substring_prefix.
    replace (String.length (String c num) + String.length "-Site_"
             + String.length d + String.length n
             - (String.length (String c num) + String.length "-Site_"))
      with (String.length (d +:+ n)) by (rewrite length_append; lia).
    rewrite <- append_assoc.
    rewrite substring_prefix. reflexivity.
  - intros p d' s' g' Hd'. cbn [lit Re.rmatch]. unfold one_char.
    destruct (Ascii.eqb_spec "-" d') as [<-|]; done.
Qed.

Lemma fnmatchcase_nil (name : string) :
  fnmatchcase "" name = true <-> name = "".
Proof. by destruct name. Qed.

Lemma fnmatchcase_star (pat name : string) :
  fnmatchcase (String "*" pat) name = true
  <-> exists a b, name = a +:+ b /\ fnmatchcase pat b = true.
Proof.
  simpl. induction name as [|c name IH].
  - rewrite orb_false_r. split.
    + intros H. by exists "", "".
    + intros (a & b & Hab & H). destruct a; [|done].
      rewrite append_nil_l in Hab. by subst b.
  - rewrite orb_true_iff, IH. split.
    + intros [H|(a & b & -> & H)].
      * by exists "", (String c name).
      * by exists (String c a), b.
    + intros (a & b & Hab & H). destruct a as [|c' a].
      * rewrite append_nil_l in Hab. subst b. by left.
      * rewrite append_cons in Hab. injection Hab as -> ->. right. by exists a, b.
Qed.

Lemma fnmatchcase_plain (t : string) :
  plain t ->
  forall pat name,
    fnmatchcase (t +:+ pat) name = true
    <-> exists name', name = t +:+ name' /\ fnmatchcase pat name' = true.
Proof.
  induction t as [|c t IH]; intros Ht pat name.
  - rewrite append_nil_l. split; [by exists name | by intros (? & -> & ?)].
  - destruct Ht as (Hstar & Hq & Ht). rewrite append_cons. simpl.
    destruct (Ascii.eqb_spec c "*") as [|_]; [done|].
    destruct (Ascii.eqb_spec c "?") as [|_]; [done|].
    destruct name as [|d name].
    + split; [done | by intros (? & ? & ?)].
    + rewrite andb_true_iff, (IH Ht). split.
      * intros [Hcd (name' & -> & H)]. apply Ascii.eqb_eq in Hcd as ->.
        by exists name'.
      * intros (name' & Heq & H). rewrite append_cons in Heq.
        injection Heq as -> ->. split; [apply Ascii.eqb_refl | by exists name'].
Qed.

Lemma fnmatch_site (name : string) :
  fnmatch name "*-Site_*.csv" = true
  <-> exists a y, name = a +:+ "-Site_" +:+ y +:+ ".csv".
Proof.
  unfold fnmatch. rewrite fnmatchcase_star. split.
  - intros (a & b & -> & H).
    change "-Site_*.csv" with ("-Site_" +:+ "*.csv") in H.
    apply fnmatchcase_plain in H as (b' & -> & H); [|by repeat split].
    apply fnmatchcase_star in H as (y & z & -> & H).
    change ".csv" with (".csv" +:+ "") in H.
    apply fnmatchcase_plain in H as (e & -> & H); [|by repeat split].
    apply fnmatchcase_nil in H as ->.
    by exists a, y.
  - intros (a & y & ->). exists a, ("-Site_" +:+ y +:+ ".csv"). split; [done|].
    change "-Site_*.csv" with ("-Site_" +:+ "*.csv").
    apply fnmatchcase_plain; [by repeat split|].
    exists (y +:+ ".csv"). split; [done|].
    apply fnmatchcase_star. exists y, ".csv". split; [done|]. reflexivity.
Qed.

Lemma last_char_append (s t : string) :
  t <> "" -> last_char (s +:+ t) = last_char t.
Proof.
  intros Ht. induction s as [|c s IH]; [done|].
  rewrite append_cons. simpl. rewrite IH.
  destruct (s +:+ t) eqn:Hst; [|done].
  destruct s; [|done]. by rewrite append_nil_l in Hst.
Qed.

Lemma chlamy_site_sound (filename w n : string) :
  chlamy_site filename = Some (Some w, Some n) -> site_csv_name filename w n.
Proof.
  unfold Loaders.chlamy_site, Loaders.site_csv_name.
  destruct (fnmatch filename "*-Site_*.csv") eqn:Hfn; [|done].
  apply fnmatch_site in Hfn as (a & y & Hname).
  destruct (re_match site_regex filename) as [m|] eqn:Hre; [|done].
  apply re_match_site_sound in Hre as (w' & n' & tail & Hw & Hn & Heq & Htail & ->).
  simpl. rewrite site_groups_insert. intros [= -> ->].
  repeat split; try apply Hw; try apply Hn.
  destruct Htail as [->| ->].
  - by rewrite append_nil_r in Heq.
  - exfalso.
    assert (H1 : last_char filename = Some "v"%char).
    { rewrite Hname, <- !append_assoc. by rewrite last_char_append. }
    assert (H2 : last_char filename = Some "010"%char).
    { rewrite Heq, <- !append_assoc. by rewrite last_char_append. }
    congruence.
Qed.

Lemma chlamy_site_complete (filename w n : string) :
  site_csv_name filename w n -> chlamy_site filename = Some (Some w, Some n).
Proof.
  unfold Loaders.chlamy_site. intros (Hw & Hn & ->).
  assert (Hfn : fnmatch (w +:+ "-Site_" +:+ n +:+ ".csv") "*-Site_*.csv" = true).
  { apply fnmatch_site. by exists w, n. }
  rewrite Hfn, re_match_site_complete by done. simpl.
  by rewrite site_groups_insert.
Qed.

Lemma chlamy_site_spec (filename w n : string) :
  chlamy_site filename = Some (Some w, Some n) <-> site_csv_name filename w n.
Proof. split; [apply chlamy_site_sound | apply chlamy_site_complete]. Qed.

(** The pattern alone, with Python's [$], also accepts a name that ends
    in a newline after [.csv]; the [fnmatch] test before it does not. *)
Example chlamy_site_trailing_newline :
  let name := "A1-Site_1.csv" +:+ String "010" "" in
  groups2 <$> Re.re_match Sample.decimal site_regex name
  = Some (Some "A1", Some "1")
  /\ Loaders.chlamy_site Sample.decimal name = None.
Proof. split; reflexivity. Qed.

Lemma chlamy_site_groups (filename : string) a b :
  chlamy_site filename = Some (a, b) ->
  exists w n, a = Some w /\ b = Some n.
Proof.
  unfold chlamy_site.
  destruct (fnmatch filename "*-Site_*.csv"); [|done].
  destruct (re_match site_regex filename) as [m|] eqn:Hre; [|done].
  apply re_match_site_sound in Hre as (w' & n' & tail & _ & _ & _ & _ & ->).
  simpl. rewrite site_groups_insert. intros [= <- <-]. by exists w', n'.
Qed.

End SiteNames.

(** ** Dictionaries *)

Section Dicts.

Import Py.

Context {K V : Type} `{EqDecision K}.

Lemma dict_set_fresh (k : K) (v : V) (d : list (K * V)) :
  k ∉ keys d -> dict_set k v d = d ++ [(k, v)].
Proof.
  induction d as [|[k' v'] d IH]; simpl; [done|].
  intros Hk. apply not_elem_of_cons in Hk as [Hne Hk].
  destruct (decide (k = k')); [done|]. by rewrite IH.
Qed.

Lemma fold_dict_set (items d : list (K * V)) :
  NoDup (keys (d ++ items)) ->
  fold_left (fun d kv => dict_set (fst kv) (snd kv) d) items d = d ++ items.
Proof.
  revert d. induction items as [|[k v] items IH]; intros d Hnd; simpl.
  - by rewrite app_nil_r.
  - unfold keys in Hnd. rewrite map_app in Hnd. simpl in Hnd.
    apply NoDup_app in Hnd as (Hd & Hdis & Hit).
    apply NoDup_cons in Hit as [Hk Hit].
    rewrite dict_set_fresh.
    + rewrite IH; [by rewrite <- app_assoc|].
      unfold keys. rewrite !map_app. simpl. rewrite <- app_assoc. simpl.
      apply NoDup_app. repeat split; try done. by constructor.
    + intros Hin. apply (Hdis k Hin). by left.
Qed.

(** A dictionary display with distinct keys lists its items in order. *)
Lemma dict_of_distinct (items : list (K * V)) :
  NoDup (keys items) -> dict_of items = items.
Proof. intros Hnd. unfold dict_of. by rewrite fold_dict_set. Qed.

End Dicts.

Section DictGet.

Import Py.

Context {K V : Type} `{EqDecision K}.

Lemma dict_get_here (k : K) (v : V) (d : list (K * V)) :
  dict_get ((k, v) :: d) k = Ok v.
Proof. simpl. by rewrite decide_True. Qed.

Lemma dict_get_next (k k' : K) (v : V) (d : list (K * V)) :
  k <> k' -> dict_get ((k', v) :: d) k = dict_get d k.
Proof. intros Hne. simpl. by rewrite decide_False. Qed.

End DictGet.

(** ** Directory trees *)

Section Trees.

Import Os.

Lemma listed_app (e1 e2 : list (string * list string * list string)) :
  listed (e1 ++ e2) = listed e1 ++ listed e2.
Proof. unfold listed. apply flat_map_app. Qed.

Lemma elem_of_listed entries root f :
  (root, f) ∈ listed entries
  <-> exists dirs files, (root, dirs, files) ∈ entries /\ f ∈ files.
Proof.
  unfold listed. rewrite list_elem_of_In, in_flat_map. split.
  - intros ([[root' dirs] files] & Hentry & Hf).
    apply in_map_iff in Hf as (f' & [= -> ->] & Hf').
    exists dirs, files. by rewrite !list_elem_of_In.
  - intros (dirs & files & Hentry & Hf). exists (root, dirs, files).
    rewrite <- list_elem_of_In. split; [done|].
    apply in_map_iff. exists f. by rewrite <- list_elem_of_In.
Qed.

(** Every file that the walk lists is a file of the tree, in the
    directory under which it is listed. *)
Lemma walk_in_tree (t : tree) :
  forall top root f,
    (root, f) ∈ listed (walk top t) ->
    exists dirs, in_tree t dirs f /\ root = dir_path top dirs.
Proof.
  revert t. fix IH 1. intros [subdirs nondirs] top root f Hin.
  cbn [walk] in Hin. change (?x :: ?l) with ([x] ++ l) in Hin.
  rewrite listed_app in Hin. apply elem_of_app in Hin as [Hin|Hin].
  { apply elem_of_listed in Hin as (dirs & files & Hentry & Hf).
    apply list_elem_of_singleton in Hentry as [= -> _ ->].
    exists []. split; [by constructor | done]. }
  assert (Hsub : exists dirname t' dirs,
            (dirname, t') ∈ subdirs /\ in_tree t' dirs f
            /\ root = dir_path (path_join top dirname) dirs).
  { induction subdirs as [|[dirname t'] subdirs IHsub];
      [by apply elem_of_nil in Hin|].
    rewrite listed_app in Hin. apply elem_of_app in Hin as [Hin|Hin].
    - destruct (IH t' _ _ _ Hin) as (dirs & Htree & ->).
      exists dirname, t', dirs. split; [by left | done].
    - destruct (IHsub Hin) as (dirname' & t'' & dirs & Hmem & Htree & ->).
      exists dirname', t'', dirs. split; [by right | done]. }
  destruct Hsub as (dirname & t' & dirs & Hmem & Htree & ->).
  exists (dirname :: dirs). split; [by econstructor | done].
Qed.

(** Every file of the tree is listed by the walk, under its directory. *)
Lemma in_tree_walk (t : tree) dirs f :
  in_tree t dirs f ->
  forall top, (dir_path top dirs, f) ∈ listed (walk top t).
Proof.
  induction 1 as [subdirs nondirs f Hf
                 |subdirs nondirs dirname t' dirs f Hmem Htree IH]; intros top.
  - apply elem_of_listed. exists (map fst subdirs), nondirs.
    split; [by left | done].
  - cbn [walk]. change (?x :: ?l) with ([x] ++ l). rewrite listed_app.
    apply elem_of_app. right.
    induction subdirs as [|[dirname' t''] subdirs IHsub];
      [by apply elem_of_nil in Hmem|].
    rewrite listed_app. apply elem_of_app.
    apply elem_of_cons in Hmem as [[= <- <-]|Hmem].
    + left. apply IH.
    + right. by apply IHsub.
Qed.

(** The walk lists as many files as the tree has. *)
Lemma walk_count (t : tree) :
  forall top, List.length (listed (walk top t)) = count_files t.
Proof.
  revert t. fix IH 1. intros [subdirs nondirs] top.
  cbn [walk count_files]. change (?x :: ?l) with ([x] ++ l).
  rewrite listed_app, length_app. f_equal.
  { unfold listed. simpl. by rewrite app_nil_r, length_map. }
  induction subdirs as [|[dirname t'] subdirs IHsub]; [done|].
  by rewrite listed_app, length_app, IH, IHsub.
Qed.

End Trees.

(** ** The loaders *)

Section LoaderProperties.

Import Py Loaders.

Variable is_decimal : N -> bool.
Variables Spectrum Num Positions : Type.
Variable from_horiba_txtfile : pathlike -> outcome Spectrum.
Variable from_renishaw_txtfile : pathlike -> outcome Spectrum.
Variable from_wasatch_csvfile : pathlike -> outcome Spectrum.
Variable from_generic_csvfile : pathlike -> outcome Spectrum.
Variable from_openraman_csvfiles :
  pathlike -> pathlike -> pathlike -> outcome Spectrum.
Variable read_renishaw_multipoint_txt :
  pathlike -> outcome (list Num * list (list Num) * Positions).
Variable RamanSpectrum : list Num -> list Num -> outcome Spectrum.
Variable REPO_ROOT_DIRECTORY : list string.
Variable disk : string -> option Os.tree.

#[local] Abbreviation DATA := (DATA_DIRECTORY REPO_ROOT_DIRECTORY).

#[local] Abbreviation load_acetonitrile :=
  (load_acetonitrile_spectra Spectrum from_horiba_txtfile from_renishaw_txtfile
     from_wasatch_csvfile from_generic_csvfile from_openraman_csvfiles
     REPO_ROOT_DIRECTORY).

#[local] Abbreviation acetonitrile_reads :=
  (Loaders.acetonitrile_reads Spectrum from_horiba_txtfile
     from_renishaw_txtfile from_wasatch_csvfile from_generic_csvfile
     from_openraman_csvfiles REPO_ROOT_DIRECTORY).

#[local] Abbreviation cc124_reads :=
  (Loaders.cc124_reads Spectrum Num Positions from_horiba_txtfile
     from_wasatch_csvfile from_generic_csvfile from_openraman_csvfiles
     read_renishaw_multipoint_txt RamanSpectrum REPO_ROOT_DIRECTORY).

Lemma acetonitrile_filepaths_eq :
  acetonitrile_filepaths REPO_ROOT_DIRECTORY
  = [ (("horiba", 785%Z), truediv DATA "Horiba_MacroRAM/acetonitrile.txt");
      (("renishaw", 785%Z), truediv DATA "Renishaw_Qontor/acetonitrile_5x.txt");
      (("wasatch", 785%Z), truediv DATA "Wasatch_WP785X/acetonitrile.csv");
      (("openraman", 532%Z),
         truediv DATA "OpenRAMAN/acetonitrile_n_n_n_solid_10000_0_5.csv");
      (("wasatch", 532%Z), truediv DATA "Wasatch_WP532X/acetonitrile.csv") ].
Proof.
  unfold acetonitrile_filepaths. rewrite dict_of_distinct; [reflexivity|].
  apply (bool_decide_unpack _). by vm_compute.
Qed.

Lemma load_acetonitrile_unfold :
  load_acetonitrile
  = (s0 <- from_horiba_txtfile
             (Path (truediv DATA "Horiba_MacroRAM/acetonitrile.txt")) ;;
     s1 <- from_renishaw_txtfile
             (Path (truediv DATA "Renishaw_Qontor/acetonitrile_5x.txt")) ;;
     s2 <- from_wasatch_csvfile
             (Path (truediv DATA "Wasatch_WP785X/acetonitrile.csv")) ;;
     s3 <- from_openraman_csvfiles
             (Path (truediv DATA "OpenRAMAN/acetonitrile_n_n_n_solid_10000_0_5.csv"))
             (Path (truediv DATA "OpenRAMAN/neon_n_n_n_solid_10000_0_5.csv"))
             (Path (truediv DATA "OpenRAMAN/acetonitrile_n_n_n_solid_10000_0_5.csv")) ;;
     s4 <- from_generic_csvfile
             (Path (truediv DATA "Wasatch_WP532X/acetonitrile.csv")) ;;
     Ok ([s0; s1; s2; s3; s4], spectrometer_table)).
Proof. reflexivity. Qed.

Lemma load_acetonitrile_returns (spectra : list Spectrum) (df : DataFrame) :
  load_acetonitrile = Ok (spectra, df)
  <-> exists s0 s1 s2 s3 s4,
        acetonitrile_reads s0 s1 s2 s3 s4
        /\ spectra = [s0; s1; s2; s3; s4]
        /\ df = spectrometer_table.
Proof.
  rewrite load_acetonitrile_unfold. unfold Loaders.acetonitrile_reads. split.
  - intros H.
    destruct (from_horiba_txtfile _) as [s0|]; [|done].
    destruct (from_renishaw_txtfile _) as [s1|]; [|done].
    destruct (from_wasatch_csvfile _) as [s2|]; [|done].
    destruct (from_openraman_csvfiles _ _ _) as [s3|]; [|done].
    destruct (from_generic_csvfile _) as [s4|]; [|done].
    injection H as <- <-. by exists s0, s1, s2, s3, s4.
  - intros (s0 & s1 & s2 & s3 & s4 & (H0 & H1 & H2 & H3 & H4) & -> & ->).
    by rewrite H0, H1, H2, H3, H4.
Qed.

Lemma parent_name_file (l : list string) (d f : string) :
  parent_name (l ++ [d; f]) = Some d.
Proof.
  unfold parent_name. rewrite removelast_app by done. simpl.
  apply last_snoc.
Qed.

Lemma parent_name_data (d f : string) :
  parent_name (DATA ++ [d; f]) = Some d.
Proof. apply parent_name_file. Qed.

#[local] Abbreviation spectrometer := (spectrometer_of REPO_ROOT_DIRECTORY).

Lemma spectrometer_of_data (d f : string) :
  spectrometer (DATA ++ [d; f])
  = if bool_decide (d = "Horiba_MacroRAM") then Some ("horiba", 785%Z)
    else if bool_decide (d = "Renishaw_Qontor") then Some ("renishaw", 785%Z)
    else if bool_decide (d = "Wasatch_WP785X") then Some ("wasatch", 785%Z)
    else if bool_decide (d = "OpenRAMAN") then Some ("openraman", 532%Z)
    else if bool_decide (d = "Wasatch_WP532X") then Some ("wasatch", 532%Z)
    else None.
Proof.
  unfold spectrometer_of. rewrite acetonitrile_filepaths_eq.
  rewrite parent_name_data.
  change (truediv DATA "Horiba_MacroRAM/acetonitrile.txt")
    with (DATA ++ ["Horiba_MacroRAM"; "acetonitrile.txt"]).
  change (truediv DATA "Renishaw_Qontor/acetonitrile_5x.txt")
    with (DATA ++ ["Renishaw_Qontor"; "acetonitrile_5x.txt"]).
  change (truediv DATA "Wasatch_WP785X/acetonitrile.csv")
    with (DATA ++ ["Wasatch_WP785X"; "acetonitrile.csv"]).
  change (truediv DATA "OpenRAMAN/acetonitrile_n_n_n_solid_10000_0_5.csv")
    with (DATA ++ ["OpenRAMAN"; "acetonitrile_n_n_n_solid_10000_0_5.csv"]).
  change (truediv DATA "Wasatch_WP532X/acetonitrile.csv")
    with (DATA ++ ["Wasatch_WP532X"; "acetonitrile.csv"]).
  cbn [find snd fst]. rewrite !parent_name_data.
  repeat (case_bool_decide; simplify_eq; simpl; try done).
Qed.

#[local] Abbreviation load_cc124 :=
  (load_cc124_tap_spectra Spectrum Num Positions from_horiba_txtfile
     from_wasatch_csvfile from_generic_csvfile from_openraman_csvfiles
     read_renishaw_multipoint_txt RamanSpectrum REPO_ROOT_DIRECTORY).

Lemma load_cc124_unfold :
  load_cc124
  = (horiba_spectrum <-
       from_horiba_txtfile (Path (truediv DATA "Horiba_MacroRAM/CC-124-TAP-2.txt")) ;;
     openraman_spectrum <-
       from_openraman_csvfiles
         (Path (truediv DATA "OpenRAMAN/CC-124_TAP_Pos-2-000_002.csv"))
         (Path (truediv DATA "OpenRAMAN/neon_n_n_n_solid_10000_0_5.csv"))
         (Path (truediv DATA "OpenRAMAN/acetonitrile_n_n_n_solid_10000_0_5.csv")) ;;
     scan <-
       read_renishaw_multipoint_txt
         (Path (truediv DATA "Renishaw_Qontor/CC-124_TAP_plate_5x_3_points.txt")) ;;
     row <- first_row (snd (fst scan)) ;;
     renishaw_spectrum <- RamanSpectrum (fst (fst scan)) row ;;
     wasatch_532_spectrum <-
       from_generic_csvfile
         (Path (truediv DATA "Wasatch_WP532X/CC-124_TAP_Pos-4-002_001.csv")) ;;
     wasatch_785_spectrum <-
       from_wasatch_csvfile
         (Path (truediv DATA "Wasatch_WP785X/CC-124_TAP_WP-02071.csv")) ;;
     Ok ([horiba_spectrum; renishaw_spectrum; wasatch_785_spectrum;
          openraman_spectrum; wasatch_532_spectrum],
         spectrometer_table)).
Proof.
  unfold load_cc124_tap_spectra.
  destruct (from_horiba_txtfile _); [|done]. cbn [obind].
  destruct (from_openraman_csvfiles _ _ _); [|done]. cbn [obind].
  destruct (read_renishaw_multipoint_txt _) as [[[wn ints] pos]|]; [|done].
  reflexivity.
Qed.

Lemma first_row_lookup (intensities : list (list Num)) (row : list Num) :
  first_row intensities = Ok row <-> intensities !! 0 = Some row.
Proof. destruct intensities; simpl; split; intros [=]; by subst. Qed.

Lemma load_cc124_returns (spectra : list Spectrum) (df : DataFrame) :
  load_cc124 = Ok (spectra, df)
  <-> exists s0 s1 s2 s3 s4,
        cc124_reads s0 s1 s2 s3 s4
        /\ spectra = [s0; s1; s2; s3; s4]
        /\ df = spectrometer_table.
Proof.
  rewrite load_cc124_unfold. unfold Loaders.cc124_reads. split.
  - intros H.
    destruct (from_horiba_txtfile _) as [s0|]; [|done].
    destruct (from_openraman_csvfiles _ _ _) as [s3|]; [|done].
    destruct (read_renishaw_multipoint_txt _) as [[[wn ints] pos]|]; [|done].
    cbn [obind fst snd] in H.
    destruct (first_row ints) as [row|] eqn:Hrow; [|done].
    cbn [obind] in H.
    destruct (RamanSpectrum wn row) as [s1|] eqn:Hs1; [|done].
    destruct (from_generic_csvfile _) as [s4|]; [|done].
    destruct (from_wasatch_csvfile _) as [s2|]; [|done].
    injection H as <- <-. exists s0, s1, s2, s3, s4.
    repeat split; try done.
    exists wn, ints, pos, row. by rewrite <- first_row_lookup.
  - intros (s0 & s1 & s2 & s3 & s4 & (H0 & H1 & H2 & H3 & H4) & -> & ->).
    destruct H1 as (wn & ints & pos & row & Hscan & Hrow & Hs1).
    apply first_row_lookup in Hrow.
    rewrite H0. cbn [obind]. rewrite H3. cbn [obind].
    rewrite Hscan. cbn [obind fst snd]. rewrite Hrow. cbn [obind].
    rewrite Hs1. cbn [obind]. rewrite H4. cbn [obind]. by rewrite H2.
Qed.


#[local] Abbreviation chlamy_site := (Loaders.chlamy_site is_decimal).

#[local] Abbreviation site_csv_name := (Loaders.site_csv_name is_decimal).

#[local] Abbreviation chlamy_selected := (Loaders.chlamy_selected is_decimal).

#[local] Abbreviation chlamy_file :=
  (Loaders.chlamy_file is_decimal from_generic_csvfile).

#[local] Abbreviation load_chlamy :=
  (load_chlamy_spectra is_decimal from_generic_csvfile disk).

#[local] Abbreviation chlamy_parallel := (Loaders.chlamy_parallel is_decimal).

#[local] Abbreviation read := (chlamy_read from_generic_csvfile).

Lemma ofold_app {A S} (body : S -> A -> outcome S) (l1 l2 : list A) (acc : S) :
  ofold body (l1 ++ l2) acc = obind (ofold body l1 acc) (ofold body l2).
Proof.
  revert acc. induction l1 as [|x l1 IH]; intros acc; simpl; [done|].
  destruct (body acc x); simpl; [apply IH | done].
Qed.

(** The nested loops of [load_chlamy_spectra] visit [walk_files]. *)
Lemma chlamy_loops_flat (entries : list (string * list string * list string))
    (acc : chlamy_lists Spectrum) :
  ofold (fun acc entry =>
           let '(root, _, files) := entry in ofold (chlamy_file root) files acc)
    entries acc
  = ofold (fun acc c => chlamy_file (fst c) acc (snd c))
      (flat_map (fun entry =>
                   let '(root, _, files) := entry in map (pair root) files)
         entries)
      acc.
Proof.
  revert acc. induction entries as [|[[root dirs] files] entries IH];
    intros acc; simpl; [done|].
  rewrite ofold_app.
  assert (Hfiles : forall acc,
    ofold (fun acc c => chlamy_file (fst c) acc (snd c)) (map (pair root) files) acc
    = ofold (chlamy_file root) files acc).
  { clear. induction files as [|f files IHf]; intros acc; simpl; [done|].
    destruct (chlamy_file root acc f); simpl; [apply IHf | done]. }
  rewrite Hfiles. destruct (ofold (chlamy_file root) files acc); simpl; [apply IH | done].
Qed.

Lemma chlamy_file_site (root filename : string) (acc : chlamy_lists Spectrum) :
  chlamy_file root acc filename
  = match chlamy_site filename with
    | Some grp =>
        spectrum <- from_generic_csvfile (Str (Os.path_join root filename)) ;;
        Ok (mkLists
              (spectra acc ++ [spectrum])
              (instrument_data acc ++ [CStr "wasatch"])
              (wavelength_data acc ++ [CInt 785])
              (well_id_data acc ++ [cell_of_group (fst grp)])
              (site_data acc ++ [cell_of_group (snd grp)]))
    | None => Ok acc
    end.
Proof.
  unfold Loaders.chlamy_file, Loaders.chlamy_site.
  destruct (Fnmatch.fnmatch filename "*-Site_*.csv"); [|done].
  destruct (Re.re_match is_decimal site_regex filename) as [m|]; [|done].
  simpl. by destruct (Re.groups2 m).
Qed.

Lemma chlamy_selected_cons (root f : string) (candidates : list (string * string)) :
  chlamy_selected ((root, f) :: candidates)
  = match chlamy_site f with
    | Some grp => (root, f, grp) :: chlamy_selected candidates
    | None => chlamy_selected candidates
    end.
Proof. unfold Loaders.chlamy_selected. simpl. by destruct (chlamy_site f). Qed.

Lemma chlamy_loop (candidates : list (string * string)) :
  forall acc,
    ofold (fun acc c => chlamy_file (fst c) acc (snd c)) candidates acc
    = obind (otraverse read (chlamy_selected candidates))
        (fun ss => Ok (extended acc ss (chlamy_selected candidates))).
Proof.
  induction candidates as [|[root f] candidates IH]; intros acc.
  - simpl. unfold extended. simpl. rewrite !app_nil_r. by destruct acc.
  - cbn [ofold fst snd]. rewrite chlamy_file_site, chlamy_selected_cons.
    destruct (chlamy_site f) as [grp|].
    + cbn [otraverse]. unfold chlamy_read at 1. cbn [fst snd].
      destruct (from_generic_csvfile _) as [s|]; [|reflexivity]. cbn [obind].
      rewrite IH.
      destruct (otraverse read (chlamy_selected candidates)) as [ss|];
        [|reflexivity].
      cbn [obind]. unfold extended. cbn [spectra instrument_data wavelength_data
        well_id_data site_data map fst snd].
      by rewrite <- !app_assoc.
    + cbn [obind]. apply IH.
Qed.

Lemma transpose_rows (sel : list (string * string * (option string * option string))) :
  transpose (List.length sel)
    [ map (fun _ => CStr "wasatch") sel;
      map (fun _ => CInt 785) sel;
      map (fun x => cell_of_group (fst (snd x))) sel;
      map (fun x => cell_of_group (snd (snd x))) sel ]
  = map chlamy_row sel.
Proof.
  unfold transpose. induction sel as [|x sel IH]; [done|].
  simpl in *. by rewrite IH.
Qed.

(** [load_chlamy_spectra] reads the selected files in order and returns
    what it read next to the table of the selected files. *)
Lemma load_chlamy_unfold (data_directory : string) :
  load_chlamy data_directory
  = (ss <- otraverse read (chlamy_selected (walk_files disk data_directory)) ;;
     Ok (ss, chlamy_table (chlamy_selected (walk_files disk data_directory)))).
Proof.
  unfold load_chlamy_spectra.
  rewrite chlamy_loops_flat. fold (walk_files disk data_directory).
  rewrite chlamy_loop.
  destruct (otraverse read _) as [ss|]; [|done]. cbn [obind].
  rewrite dict_of_distinct by (apply (bool_decide_unpack _); by vm_compute).
  unfold extended.
  cbn [spectra instrument_data wavelength_data well_id_data site_data app].
  unfold DataFrame_of_dict. cbn [forallb snd].
  rewrite !length_map, Nat.eqb_refl. cbn [andb obind].
  unfold values, keys. cbn [map fst snd]. by rewrite transpose_rows.
Qed.

Lemma otraverse_Forall2 {A B} (f : A -> outcome B) (l : list A) (ys : list B) :
  otraverse f l = Ok ys <-> Forall2 (fun x y => f x = Ok y) l ys.
Proof.
  revert ys. induction l as [|x l IH]; intros ys; simpl.
  - split; [intros [= <-]; constructor | by inversion 1].
  - split.
    + destruct (f x) as [y|] eqn:Hy; [|done]. simpl.
      destruct (otraverse f l) as [ys'|]; [|done]. simpl.
      intros [= <-]. constructor; [done|]. by apply IH.
    + inversion 1 as [|? y ? ys' Hy Hys]; subst.
      rewrite Hy. simpl. apply IH in Hys. by rewrite Hys.
Qed.

(** Selecting keeps the candidates that pass the two tests, in order. *)
Lemma chlamy_selected_filter (candidates : list (string * string)) :
  map fst (chlamy_selected candidates)
  = filter (fun c => is_Some (chlamy_site (snd c))) candidates.
Proof.
  induction candidates as [|[root f] candidates IH]; [done|].
  rewrite chlamy_selected_cons, filter_cons. simpl.
  destruct (chlamy_site f) as [grp|] eqn:Hsite.
  - rewrite decide_True by done. simpl. by rewrite IH.
  - rewrite decide_False by (by intros [? ?]). exact IH.
Qed.

Lemma chlamy_selected_lookup (candidates : list (string * string)) i x :
  chlamy_selected candidates !! i = Some x ->
  fst x ∈ candidates /\ chlamy_site (snd (fst x)) = Some (snd x).
Proof.
  intros Hx. apply list_elem_of_lookup_2 in Hx.
  unfold Loaders.chlamy_selected in Hx.
  apply list_elem_of_omap in Hx as (c & Hc & Hsel).
  destruct (chlamy_site (snd c)) as [grp|] eqn:Hsite; [|done].
  simpl in Hsel. injection Hsel as <-. by simpl.
Qed.

(** The full stop, U+002E, is not a decimal digit. *)
Hypothesis full_stop_not_decimal : is_decimal 46 = false.

(** A file name passes the two tests exactly when it has the form
    [<well>-Site_<n>.csv]. *)
Lemma chlamy_site_is_Some (filename : string) :
  is_Some (chlamy_site filename) <-> exists w n, site_csv_name filename w n.
Proof.
  split.
  - intros [[a b] Hsite].
    destruct (chlamy_site_groups _ _ _ _ Hsite) as (w & n & -> & ->).
    exists w, n. by apply chlamy_site_sound.
  - intros (w & n & H).
    apply (chlamy_site_complete _ full_stop_not_decimal) in H. by eexists.
Qed.

(** C3.  The [filepaths] of [load_acetonitrile_spectra] map the five
    spectrometers, in the order horiba 785, renishaw 785, wasatch 785,
    openraman 532, wasatch 532, to their acetonitrile files; the function
    returns exactly when the five reading calls do, each file read by
    its spectrometer's class method (the OpenRAMAN one with its
    calibration files), and then the spectra are the five results in
    that order. *)
Theorem load_acetonitrile_spectra_five (spectra : list Spectrum) (df : DataFrame) :
  acetonitrile_filepaths REPO_ROOT_DIRECTORY
  = [ (("horiba", 785%Z), truediv DATA "Horiba_MacroRAM/acetonitrile.txt");
      (("renishaw", 785%Z), truediv DATA "Renishaw_Qontor/acetonitrile_5x.txt");
      (("wasatch", 785%Z), truediv DATA "Wasatch_WP785X/acetonitrile.csv");
      (("openraman", 532%Z),
         truediv DATA "OpenRAMAN/acetonitrile_n_n_n_solid_10000_0_5.csv");
      (("wasatch", 532%Z), truediv DATA "Wasatch_WP532X/acetonitrile.csv") ]
  /\ (load_acetonitrile = Ok (spectra, df)
      <-> exists s0 s1 s2 s3 s4,
            acetonitrile_reads s0 s1 s2 s3 s4
            /\ spectra = [s0; s1; s2; s3; s4]
            /\ df = spectrometer_table).
Proof.
  split; [apply acetonitrile_filepaths_eq | apply load_acetonitrile_returns].
Qed.

(** C9.  Whenever [load_cc124_tap_spectra] returns, its second spectrum,
    the one in the renishaw row of the table, is the [RamanSpectrum]
    built from the whole wavenumber axis returned by
    [read_renishaw_multipoint_txt] and row 0 of its intensities. *)
Theorem load_cc124_renishaw_first_point (spectra : list Spectrum) (df : DataFrame) :
  load_cc124 = Ok (spectra, df) ->
  exists wavenumbers_cm1 intensities positions row renishaw_spectrum,
    read_renishaw_multipoint_txt
      (Path (truediv DATA "Renishaw_Qontor/CC-124_TAP_plate_5x_3_points.txt"))
    = Ok (wavenumbers_cm1, intensities, positions)
    /\ intensities !! 0 = Some row
    /\ RamanSpectrum wavenumbers_cm1 row = Ok renishaw_spectrum
    /\ spectra !! 1 = Some renishaw_spectrum
    /\ rows df !! 1 = Some [CStr "renishaw"; CInt 785].
Proof.
  intros H. apply load_cc124_returns in H
    as (s0 & s1 & s2 & s3 & s4 & (_ & Hren & _) & -> & ->).
  destruct Hren as (wn & ints & pos & row & Hscan & Hrow & Hs1).
  by exists wn, ints, pos, row, s1.
Qed.

#[local] Abbreviation loaded_from :=
  (Loaders.loaded_from Spectrum Num Positions from_horiba_txtfile
     from_renishaw_txtfile from_wasatch_csvfile from_generic_csvfile
     from_openraman_csvfiles read_renishaw_multipoint_txt RamanSpectrum).

#[local] Abbreviation table_parallel :=
  (Loaders.table_parallel Spectrum Num Positions from_horiba_txtfile
     from_renishaw_txtfile from_wasatch_csvfile from_generic_csvfile
     from_openraman_csvfiles read_renishaw_multipoint_txt RamanSpectrum
     REPO_ROOT_DIRECTORY).

(** Five spectra, each loaded from a file of the spectrometer in its
    row, are parallel to the table of spectrometers. *)
Lemma spectrometer_table_parallel (s0 s1 s2 s3 s4 : Spectrum)
    (f0 f1 f2 f3 f4 : list string) :
  spectrometer f0 = Some ("horiba", 785%Z) -> loaded_from (Path f0) s0 ->
  spectrometer f1 = Some ("renishaw", 785%Z) -> loaded_from (Path f1) s1 ->
  spectrometer f2 = Some ("wasatch", 785%Z) -> loaded_from (Path f2) s2 ->
  spectrometer f3 = Some ("openraman", 532%Z) -> loaded_from (Path f3) s3 ->
  spectrometer f4 = Some ("wasatch", 532%Z) -> loaded_from (Path f4) s4 ->
  table_parallel [s0; s1; s2; s3; s4] spectrometer_table.
Proof.
  intros. split; [done|].
  intros [|[|[|[|[|i]]]]] s [=]; subst; eexists _, _, _; eauto.
Qed.

Lemma load_acetonitrile_parallel (spectra : list Spectrum) (df : DataFrame) :
  load_acetonitrile = Ok (spectra, df) -> table_parallel spectra df.
Proof.
  intros H. apply load_acetonitrile_returns in H
    as (s0 & s1 & s2 & s3 & s4 & (H0 & H1 & H2 & H3 & H4) & -> & ->).
  eapply spectrometer_table_parallel.
  - exact (spectrometer_of_data "Horiba_MacroRAM" "acetonitrile.txt").
  - by left.
  - exact (spectrometer_of_data "Renishaw_Qontor" "acetonitrile_5x.txt").
  - right. by left.
  - exact (spectrometer_of_data "Wasatch_WP785X" "acetonitrile.csv").
  - right. right. by left.
  - exact (spectrometer_of_data "OpenRAMAN"
             "acetonitrile_n_n_n_solid_10000_0_5.csv").
  - do 4 right. left. eauto.
  - exact (spectrometer_of_data "Wasatch_WP532X" "acetonitrile.csv").
  - do 3 right. by left.
Qed.

Lemma load_cc124_parallel (spectra : list Spectrum) (df : DataFrame) :
  load_cc124 = Ok (spectra, df) -> table_parallel spectra df.
Proof.
  intros H. apply load_cc124_returns in H
    as (s0 & s1 & s2 & s3 & s4 & (H0 & H1 & H2 & H3 & H4) & -> & ->).
  eapply spectrometer_table_parallel.
  - exact (spectrometer_of_data "Horiba_MacroRAM" "CC-124-TAP-2.txt").
  - by left.
  - exact (spectrometer_of_data "Renishaw_Qontor"
             "CC-124_TAP_plate_5x_3_points.txt").
  - do 5 right. exact H1.
  - exact (spectrometer_of_data "Wasatch_WP785X" "CC-124_TAP_WP-02071.csv").
  - right. right. by left.
  - exact (spectrometer_of_data "OpenRAMAN" "CC-124_TAP_Pos-2-000_002.csv").
  - do 4 right. left. eauto.
  - exact (spectrometer_of_data "Wasatch_WP532X"
             "CC-124_TAP_Pos-4-002_001.csv").
  - do 3 right. by left.
Qed.

(** What [load_chlamy_spectra] returns, in terms of the selected files. *)
Lemma load_chlamy_returns (data_directory : string)
    (spectra : list Spectrum) (df : DataFrame) :
  load_chlamy data_directory = Ok (spectra, df)
  <-> Forall2 (fun x s => read x = Ok s)
        (chlamy_selected (walk_files disk data_directory)) spectra
      /\ df = chlamy_table (chlamy_selected (walk_files disk data_directory)).
Proof.
  rewrite load_chlamy_unfold, <- otraverse_Forall2.
  destruct (otraverse read _) as [ss|]; simpl.
  - split; [by intros [= <- <-] | by intros [[= ->] ->]].
  - split; [done | by intros [? _]].
Qed.

Lemma load_chlamy_parallel (data_directory : string)
    (spectra : list Spectrum) (df : DataFrame) :
  load_chlamy data_directory = Ok (spectra, df) ->
  chlamy_parallel from_generic_csvfile disk data_directory spectra df.
Proof.
  intros [Hreads ->]%load_chlamy_returns. split.
  - simpl. rewrite length_map. by eapply Forall2_length.
  - intros i s Hs.
    destruct (Forall2_lookup_r _ _ _ _ _ Hreads Hs) as ([[root f] grp] & Hx & Hread).
    destruct (chlamy_selected_lookup _ _ _ Hx) as [Hin Hsite]. simpl in Hin, Hsite.
    destruct grp as [a b].
    destruct (chlamy_site_groups _ _ _ _ Hsite) as (w & n & -> & ->).
    exists root, f, w, n.
    split; [|split; [exact Hin|split; [by apply chlamy_site_sound | exact Hread]]].
    simpl. rewrite list_lookup_fmap, Hx. reflexivity.
Qed.

(** C1.  For each of the three loaders, whenever it returns, the table
    has as many rows as there are spectra, and row [i] describes the
    file from which spectrum [i] was loaded: its spectrometer
    (instrument and wavelength) for [load_acetonitrile_spectra] and
    [load_cc124_tap_spectra]; for [load_chlamy_spectra], whose files are
    all taken to come from the Wasatch 785 nm instrument, also the well
    and the site in the file's name. *)
Theorem loaders_tables_parallel :
  (forall spectra df,
     load_acetonitrile = Ok (spectra, df) -> table_parallel spectra df)
  /\ (forall spectra df,
        load_cc124 = Ok (spectra, df) -> table_parallel spectra df)
  /\ (forall data_directory spectra df,
        load_chlamy data_directory = Ok (spectra, df) ->
        chlamy_parallel from_generic_csvfile disk data_directory spectra df).
Proof.
  split; [exact load_acetonitrile_parallel|].
  split; [exact load_cc124_parallel | exact load_chlamy_parallel].
Qed.

Lemma walk_files_in_tree (data_directory root f : string) :
  (root, f) ∈ walk_files disk data_directory
  <-> exists t dirs,
        disk data_directory = Some t /\ Os.in_tree t dirs f
        /\ root = Os.dir_path data_directory dirs.
Proof.
  change (walk_files disk data_directory)
    with (Os.listed (Os.os_walk disk data_directory)).
  unfold Os.os_walk. destruct (disk data_directory) as [t|].
  - split.
    + intros Hin. apply walk_in_tree in Hin as (dirs & Htree & ->). by exists t, dirs.
    + intros (t' & dirs & [= <-] & Htree & ->). by apply in_tree_walk.
  - split; [by intros ?%elem_of_nil | by intros (? & ? & ? & _)].
Qed.

Lemma walk_files_count (data_directory : string) :
  List.length (walk_files disk data_directory)
  = from_option Os.count_files 0 (disk data_directory).
Proof.
  change (walk_files disk data_directory)
    with (Os.listed (Os.os_walk disk data_directory)).
  unfold Os.os_walk. destruct (disk data_directory) as [t|]; [|done].
  apply walk_count.
Qed.

(** C2.  The loop of [load_chlamy_spectra] meets the files of the tree
    under the directory, each once: a file is met under a path exactly
    when it lies in the directory reached from [data_directory] through
    a chain of sub-directories, and as many files are met as the tree
    has.  Among them, those loaded are exactly those whose name has the
    form [<well>-Site_<n>.csv], with a well from A1 to H12 and a
    non-empty string of digits: whenever the function returns, its
    spectra are, in order, the results of reading these files, and its
    table has one row for each; every other file gives neither.  The
    function returns as soon as each of these files can be read. *)
Theorem load_chlamy_selects_site_files (data_directory : string) :
  let candidates := walk_files disk data_directory in
  let loaded := filter (fun c => is_Some (chlamy_site (snd c))) candidates in
  (forall root f,
     (root, f) ∈ candidates
     <-> exists t dirs,
           disk data_directory = Some t /\ Os.in_tree t dirs f
           /\ root = Os.dir_path data_directory dirs)
  /\ List.length candidates = from_option Os.count_files 0 (disk data_directory)
  /\ (forall c,
        c ∈ loaded <-> c ∈ candidates /\ exists w n, site_csv_name (snd c) w n)
  /\ (forall spectra df,
        load_chlamy data_directory = Ok (spectra, df) ->
        Forall2 (fun c s =>
                   from_generic_csvfile (Str (Os.path_join (fst c) (snd c)))
                   = Ok s)
          loaded spectra
        /\ List.length (rows df) = List.length loaded)
  /\ ((forall c, c ∈ loaded ->
         exists s,
           from_generic_csvfile (Str (Os.path_join (fst c) (snd c))) = Ok s) ->
      exists spectra df, load_chlamy data_directory = Ok (spectra, df)).
Proof.
  intros candidates loaded.
  assert (Hloaded : loaded = map fst (chlamy_selected candidates)).
  { subst loaded. by rewrite chlamy_selected_filter. }
  split; [intros root f; apply walk_files_in_tree|].
  split; [apply walk_files_count|].
  split; [|split].
  - intros c. subst loaded. rewrite list_elem_of_filter, chlamy_site_is_Some.
    tauto.
  - intros spectra df [Hreads ->]%load_chlamy_returns. fold candidates in Hreads.
    rewrite Hloaded. split.
    + apply Forall2_fmap_l. eapply Forall2_impl; [exact Hreads|]. done.
    + simpl. by rewrite !length_map.
  - intros Hall.
    assert (Hex : exists spectra,
      Forall2 (fun x s => read x = Ok s) (chlamy_selected candidates) spectra).
    { rewrite Hloaded in Hall. clear Hloaded.
      induction (chlamy_selected candidates) as [|x sel IH].
      - exists []. constructor.
      - destruct (Hall (fst x)) as [s Hs]; [by left|].
        destruct IH as [ss Hss].
        { intros c Hc. apply Hall. by right. }
        exists (s :: ss). by constructor. }
    destruct Hex as [spectra Hreads].
    exists spectra, (chlamy_table (chlamy_selected candidates)).
    by apply load_chlamy_returns.
Qed.

(** C10.  Whenever [load_chlamy_spectra] returns, the columns of its
    table are instrument, λ_nm, well_ID and site, and every row holds
    the string "wasatch", the integer 785, and, as strings, the two
    groups captured by the pattern in the name of a file of the tree:
    the well and the digits of the site, as they are written. *)
Theorem load_chlamy_rows (data_directory : string)
    (spectra : list Spectrum) (df : DataFrame) :
  load_chlamy data_directory = Ok (spectra, df) ->
  columns df = ["instrument"; "λ_nm"; "well_ID"; "site"]
  /\ forall row,
       row ∈ rows df ->
       exists root filename m well site,
         (root, filename) ∈ walk_files disk data_directory
         /\ Re.re_match is_decimal site_regex filename = Some m
         /\ Re.groups2 m = (Some well, Some site)
         /\ filename = well +:+ "-Site_" +:+ site +:+ ".csv"
         /\ row = [CStr "wasatch"; CInt 785; CStr well; CStr site].
Proof.
  intros [Hreads ->]%load_chlamy_returns. split; [done|].
  intros row Hrow. simpl in Hrow.
  apply list_elem_of_fmap in Hrow as ([[root f] [a b]] & -> & Hx).
  apply list_elem_of_lookup in Hx as [i Hx].
  destruct (chlamy_selected_lookup _ _ _ Hx) as [Hin Hsite]. simpl in Hin, Hsite.
  destruct (chlamy_site_groups _ _ _ _ Hsite) as (w & n & -> & ->).
  pose proof Hsite as Hname. apply chlamy_site_sound in Hname as (_ & _ & Hname).
  unfold Loaders.chlamy_site in Hsite.
  destruct (Fnmatch.fnmatch f "*-Site_*.csv"); [|done].
  destruct (Re.re_match is_decimal site_regex f) as [m|] eqn:Hre; [|done].
  injection Hsite as H1 H2.
  exists root, f, m, w, n. unfold Re.groups2. rewrite H1, H2.
  by repeat split.
Qed.

End LoaderProperties.

(** ** The archive helpers *)

Section TarProperties.

Import Tar.

Context {Kw V : Type}.

Variable mktemp : gmap string string -> string.

(** [NamedTemporaryFile] never reuses the name of an existing file. *)
Hypothesis mktemp_fresh : forall fs, fs !! mktemp fs = None.

Lemma set_files_files (w : World Kw) : set_files (files w) w = w.
Proof. by destruct w. Qed.

Lemma staged_spec (datas : list string) :
  forall fs ps fs',
    staged mktemp datas fs = (ps, fs') ->
    List.length ps = List.length datas
    /\ NoDup ps
    /\ (forall p, p ∈ ps -> fs !! p = None)
    /\ (forall q, q ∉ ps -> fs' !! q = fs !! q)
    /\ (forall i p d, ps !! i = Some p -> datas !! i = Some d -> fs' !! p = Some d).
Proof.
  induction datas as [|d ds IH]; intros fs ps fs' Hst; simpl in Hst.
  - inversion Hst; subst. repeat split; try done.
    + constructor.
    + intros p Hp. by apply not_elem_of_nil in Hp.
  - destruct (staged mktemp ds (<[mktemp fs := d]> fs)) as [qs fs1] eqn:Hrec.
    inversion Hst; subst. clear Hst.
    destruct (IH _ _ _ Hrec) as (Hlen & Hnd & Hnew & Hold & Hdata).
    assert (Hp : mktemp fs ∉ qs).
    { intros Hin. specialize (Hnew _ Hin). by rewrite lookup_insert_eq in Hnew. }
    repeat split.
    + simpl. by rewrite Hlen.
    + by constructor.
    + intros p [->|Hin]%elem_of_cons; [apply mktemp_fresh|].
      specialize (Hnew _ Hin).
      rewrite lookup_insert in Hnew. by case_decide.
    + intros q Hq. apply not_elem_of_cons in Hq as [Hne Hq].
      rewrite (Hold _ Hq). by rewrite lookup_insert_ne.
    + intros [|i] p d' Hi Hd; simpl in *.
      * inversion Hi; inversion Hd; subst.
        rewrite (Hold _ Hp). apply lookup_insert_eq.
      * eauto.
Qed.

(** One turn of the extraction loop, for a member that is a regular file. *)
Lemma extract_one (tar : gmap string member) (filename data : string)
    (acc : list string) (w : World Kw) :
  tar !! filename = Some (RegFile data) ->
  bind (extractfile tar filename) (fun tar_member =>
    with_NamedTemporaryFile mktemp false (fun tmp_file =>
      bind (copyfileobj tar_member tmp_file) (fun _ =>
        ret (acc ++ [tmp_file])))) w
  = (Ok (acc ++ [mktemp (files w)]),
     set_files (<[mktemp (files w) := data]> (files w)) w).
Proof.
  intros Hm. unfold bind, extractfile, with_NamedTemporaryFile. rewrite Hm.
  simpl. unfold set_files; simpl. by rewrite insert_insert_eq.
Qed.

(** The whole extraction loop, when every name is a regular file. *)
Lemma extract_loop (tar : gmap string member) (filenames datas : list string) :
  Forall2 (fun f d => tar !! f = Some (RegFile d)) filenames datas ->
  forall (acc : list string) (w : World Kw),
    for_acc filenames acc (fun tmp_filenames filename =>
      bind (extractfile tar filename) (fun tar_member =>
        with_NamedTemporaryFile mktemp false (fun tmp_file =>
          bind (copyfileobj tar_member tmp_file) (fun _ =>
            ret (tmp_filenames ++ [tmp_file]))))) w
    = (Ok (acc ++ fst (staged mktemp datas (files w))),
       set_files (snd (staged mktemp datas (files w))) w).
Proof.
  induction 1 as [|f d fs ds Hf _ IH]; intros acc w; simpl.
  - rewrite app_nil_r. unfold ret. by rewrite set_files_files.
  - unfold bind at 1. rewrite (extract_one _ _ _ _ _ Hf). rewrite IH. simpl.
    destruct (staged mktemp ds (<[mktemp (files w):=d]> (files w))) as [ps fs'].
    simpl. by rewrite <- app_assoc.
Qed.

(** Removing, one after the other, files that are all there and all
    different succeeds and removes exactly them. *)
Lemma remove_loop (ps : list string) :
  NoDup ps ->
  forall w : World Kw,
    (forall p, p ∈ ps -> is_Some (files w !! p)) ->
    exists fs',
      for_each ps os_remove w = (Ok tt, set_files fs' w)
      /\ forall q, fs' !! q = if decide (q ∈ ps) then None else files w !! q.
Proof.
  induction 1 as [|p ps Hp Hnd IH]; intros w Hall; simpl.
  - exists (files w). rewrite set_files_files. split; [done|].
    done.
  - destruct (Hall p) as [c Hc]; [by left|].
    unfold bind, os_remove at 1. rewrite Hc.
    destruct (IH (set_files (delete p (files w)) w)) as (fs' & Hrun & Hfs').
    { intros q Hq. simpl. rewrite lookup_delete_ne; [|by intros ->].
      apply Hall. by right. }
    exists fs'. rewrite Hrun. split; [done|].
    intros q. rewrite Hfs'. simpl.
    destruct (decide (q = p)) as [->|Hne].
    + rewrite lookup_delete_eq.
      destruct (decide (p ∈ p :: ps)) as [_|Hn]; [|exfalso; apply Hn; by left].
      by destruct (decide (p ∈ ps)).
    + rewrite lookup_delete_ne by done.
      destruct (decide (q ∈ ps)) as [Hin|Hnin];
        destruct (decide (q ∈ p :: ps)) as [Hin'|Hnin']; try done.
      * exfalso. apply Hnin'. by right.
      * exfalso. apply elem_of_cons in Hin' as [?|?]; done.
Qed.

(** Once the temporary files are staged, removing them gives back the
    disk as it was. *)
Lemma staged_removed (datas : list string) (fs : gmap string string)
    (w : World Kw) :
  exists fs',
    for_each (fst (staged mktemp datas fs)) os_remove
      (set_files (snd (staged mktemp datas fs)) w)
    = (Ok tt, set_files fs' w)
    /\ fs' = fs.
Proof.
  destruct (staged mktemp datas fs) as [ps disk] eqn:Hst. simpl.
  destruct (staged_spec _ _ _ _ Hst) as (Hlen & Hnd & Hnew & Hold & Hdata).
  destruct (remove_loop ps Hnd (set_files disk w)) as (fs' & Hrun & Hfs').
  { intros p Hp. simpl.
    apply list_elem_of_lookup in Hp as [i Hi].
    destruct (lookup_lt_is_Some_2 datas i) as [d Hd].
    { rewrite <- Hlen. by eapply lookup_lt_Some. }
    rewrite (Hdata _ _ _ Hi Hd). by eexists. }
  exists fs'. split; [exact Hrun|].
  apply map_eq. intros q. rewrite Hfs'. simpl.
  case_decide as Hq; [by rewrite Hnew | by apply Hold].
Qed.

(** C5.  When [filename] names a regular file of the archive at
    [tarpath], [tar_wrapper_single] puts the member's bytes in a new
    temporary file, calls [function] once, on that path alone and with
    the keyword arguments it was given, and its own outcome is the
    outcome of that call: the value returned, when the function returns
    one.  The temporary file is gone afterwards. *)
Theorem tar_wrapper_single_calls_function
    (function : callable Kw V) (kwargs : Kw) (tarpath filename : string)
    (w : World Kw) (tar : gmap string member) (data : string) :
  archives w !! tarpath = Some tar ->
  tar !! filename = Some (RegFile data) ->
  let tmp := mktemp (files w) in
  files w !! tmp = None
  /\ tar_wrapper_single mktemp tarpath filename function kwargs w
     = (function [tmp] kwargs (<[tmp := data]> (files w)),
        mkWorld (archives w) (files w) (calls w ++ [([tmp], kwargs)])).
Proof.
  intros Har Hm tmp. split; [apply mktemp_fresh|].
  unfold tar_wrapper_single, bind, with_tarfile_open. rewrite Har.
  unfold extractfile. rewrite Hm. simpl.
  unfold with_NamedTemporaryFile, call, log_call, set_files, ret. simpl.
  fold tmp. rewrite insert_insert_eq.
  rewrite delete_insert_eq. rewrite delete_id by apply mktemp_fresh.
  by destruct (function [tmp] kwargs (<[tmp:=data]> (files w))).
Qed.

(** C6.  When the names are regular files of the archive and there is at
    least one, [tar_wrapper_multiple] gives each member a temporary file
    of its own holding the member's bytes, calls [function] once, with
    the temporary paths as positional arguments in the order of the names
    and with the keyword arguments it was given, and its own outcome is
    the outcome of that call.  The temporary files are gone afterwards. *)
Theorem tar_wrapper_multiple_calls_function
    (function : callable Kw V) (kwargs : Kw) (tarpath : string)
    (filenames : list string) (w : World Kw) (tar : gmap string member)
    (datas : list string) :
  archives w !! tarpath = Some tar ->
  Forall2 (fun f d => tar !! f = Some (RegFile d)) filenames datas ->
  filenames <> [] ->
  let tmps := fst (staged mktemp datas (files w)) in
  let disk := snd (staged mktemp datas (files w)) in
  List.length tmps = List.length filenames
  /\ NoDup tmps
  /\ (forall p, p ∈ tmps -> files w !! p = None)
  /\ (forall i p d, tmps !! i = Some p -> datas !! i = Some d -> disk !! p = Some d)
  /\ (forall q, q ∉ tmps -> disk !! q = files w !! q)
  /\ tar_wrapper_multiple mktemp tarpath filenames function kwargs w
     = (function tmps kwargs disk,
        mkWorld (archives w) (files w) (calls w ++ [(tmps, kwargs)])).
Proof.
  intros Har Hall Hne tmps disk.
  destruct (staged mktemp datas (files w)) as [ps fs1] eqn:Hst.
  destruct (staged_spec _ _ _ _ Hst) as (Hlen & Hnd & Hnew & Hold & Hdata).
  subst tmps disk. simpl.
  assert (Hlen' : List.length ps = List.length filenames).
  { rewrite Hlen. symmetry. by eapply Forall2_length. }
  repeat split; try done.
  unfold tar_wrapper_multiple.
  unfold bind at 1. unfold with_tarfile_open. rewrite Har.
  rewrite (extract_loop _ _ _ Hall). rewrite Hst. simpl.
  destruct ps as [|p ps].
  { destruct filenames; [done | discriminate Hlen']. }
  unfold bind at 1. unfold try_finally, bind at 1, call.
  destruct (staged_removed datas (files w) (log_call (p :: ps, kwargs) w))
    as (fs' & Hrun & ->).
  rewrite Hst in Hrun. cbn [fst snd] in Hrun.
  change (log_call (p :: ps, kwargs) (set_files fs1 w))
    with (set_files fs1 (log_call (p :: ps, kwargs) w)).
  change (files (set_files fs1 w)) with fs1.
  destruct (function (p :: ps) kwargs fs1) as [v|e];
    unfold ret at 1; rewrite Hrun; reflexivity.
Qed.

(** X1.  [tar_wrapper_single] leaves the disk as it found it on every
    path: when the archive or the member is missing, when the member is
    not a file, and when the function returns or raises. *)
Lemma tar_wrapper_single_restores_disk
    (function : callable Kw V) (kwargs : Kw) (tarpath filename : string)
    (w : World Kw) :
  files (snd (tar_wrapper_single mktemp tarpath filename function kwargs w))
  = files w.
Proof.
  unfold tar_wrapper_single, bind, with_tarfile_open.
  destruct (archives w !! tarpath) as [tar|]; [|done].
  unfold extractfile.
  destruct (tar !! filename) as [[data|]|]; simpl; [| |done].
  - unfold with_NamedTemporaryFile, call, log_call, set_files, ret. simpl.
    destruct (function _ kwargs _); simpl;
      rewrite insert_insert_eq, delete_insert_eq;
      by rewrite delete_id by apply mktemp_fresh.
  - unfold with_NamedTemporaryFile. simpl.
    rewrite delete_insert_eq. by rewrite delete_id by apply mktemp_fresh.
Qed.

End TarProperties.

Section TarErrorPaths.

Import Tar Sample.

Context {Kw V : Type}.

Variable mktemp : gmap string string -> string.

(** When the second of two names is missing from the archive, the
    extraction loop stops with [KeyError] after it has created the
    temporary file of the first; nothing removes that file. *)
Lemma tar_wrapper_multiple_second_missing
    (function : callable Kw V) (kwargs : Kw) (tarpath f1 f2 d1 : string)
    (tar : gmap string member) (w : World Kw) :
  archives w !! tarpath = Some tar ->
  tar !! f1 = Some (RegFile d1) ->
  tar !! f2 = None ->
  tar_wrapper_multiple mktemp tarpath [f1; f2] function kwargs w
  = (Raise KeyError, set_files (<[mktemp (files w) := d1]> (files w)) w).
Proof.
  intros Har H1 H2. unfold tar_wrapper_multiple.
  unfold bind at 1. unfold with_tarfile_open. rewrite Har.
  cbn [for_acc]. unfold bind at 1.
  rewrite (extract_one mktemp _ _ _ _ _ H1).
  unfold bind, extractfile. by rewrite H2.
Qed.

(** When the first name is a member that is not a file, [copyfileobj]
    raises [AttributeError] inside the block of its temporary file, which
    was made with [delete=False] and stays. *)
Lemma tar_wrapper_multiple_not_a_file
    (function : callable Kw V) (kwargs : Kw) (tarpath f1 : string)
    (rest : list string) (tar : gmap string member) (w : World Kw) :
  archives w !! tarpath = Some tar ->
  tar !! f1 = Some NotAFile ->
  tar_wrapper_multiple mktemp tarpath (f1 :: rest) function kwargs w
  = (Raise AttributeError, set_files (<[mktemp (files w) := ""]> (files w)) w).
Proof.
  intros Har H1. unfold tar_wrapper_multiple.
  unfold bind at 1. unfold with_tarfile_open. rewrite Har.
  cbn [for_acc]. unfold bind, extractfile. by rewrite H1.
Qed.

(** C7.  [tar_wrapper_multiple] asked for [x] and then for a member [y]
    that the archive does not have: the temporary file made for [x]
    stays on the disk when [KeyError] leaves the function, which was
    never called. *)
Theorem tar_wrapper_multiple_leaves_tempfile
    (function : callable Kw V) (kwargs : Kw) :
  tar_wrapper_multiple mktemp "a.tar" ["x"; "y"] function kwargs
    (one_member_world Kw)
  = (Raise KeyError,
     mkWorld (archives (one_member_world Kw)) {[ mktemp ∅ := "data" ]} []).
Proof.
  rewrite (tar_wrapper_multiple_second_missing function kwargs
             "a.tar" "x" "y" "data" {[ "x" := RegFile "data" ]}).
  - reflexivity.
  - apply lookup_singleton_eq.
  - apply lookup_singleton_eq.
  - by apply lookup_singleton_ne.
Qed.

(** C8.  With no filenames, [tar_wrapper_multiple] raises and leaves the
    world, the log of calls included, as it was: the function is not
    called.  The exception is [UnboundLocalError] as soon as the archive
    can be opened.  Hence a call that returns a value had a filename. *)
Theorem tar_wrapper_multiple_empty
    (function : callable Kw V) (kwargs : Kw) (tarpath : string) (w : World Kw) :
  (exists e,
     tar_wrapper_multiple mktemp tarpath [] function kwargs w = (Raise e, w)
     /\ (is_Some (archives w !! tarpath) -> e = UnboundLocalError))
  /\ (forall filenames v w',
        tar_wrapper_multiple mktemp tarpath filenames function kwargs w
        = (Ok v, w') ->
        filenames <> []).
Proof.
  assert (Hempty : exists e,
    tar_wrapper_multiple mktemp tarpath [] function kwargs w = (Raise e, w)
    /\ (is_Some (archives w !! tarpath) -> e = UnboundLocalError)).
  { unfold tar_wrapper_multiple, bind, with_tarfile_open.
    destruct (archives w !! tarpath) as [tar|]; simpl.
    - by exists UnboundLocalError.
    - exists (open_error w tarpath). split; [done|]. by intros [? ?]. }
  split; [exact Hempty|].
  intros filenames v w' Hrun ->.
  destruct Hempty as (e & He & _). rewrite He in Hrun. discriminate.
Qed.

End TarErrorPaths.

(** ** The archive helpers on every path *)

Section TarCoverage.

Import Tar.

Context {Kw V : Type}.

Variable mktemp : gmap string string -> string.

Hypothesis mktemp_fresh : forall fs, fs !! mktemp fs = None.

#[local] Abbreviation regular tar :=
  (fun f d : string => (tar : gmap string member) !! f = Some (RegFile d)).

#[local] Abbreviation extract_body tar :=
  (fun (tmp_filenames : list string) (filename : string) =>
     bind (extractfile (Kw:=Kw) tar filename) (fun tar_member =>
       with_NamedTemporaryFile mktemp false (fun tmp_file =>
         bind (copyfileobj tar_member tmp_file) (fun _ =>
           ret (tmp_filenames ++ [tmp_file]))))).

Lemma for_acc_app {A S} (l1 l2 : list A) (body : S -> A -> M Kw S) :
  forall acc w,
    for_acc (l1 ++ l2) acc body w
    = bind (for_acc l1 acc body) (fun acc' => for_acc l2 acc' body) w.
Proof.
  induction l1 as [|x l1 IH]; intros acc w; simpl; [done|].
  unfold bind. destruct (body acc x w) as [[acc'|e] w1]; [|done].
  exact (IH acc' w1).
Qed.

(** One turn of the extraction loop, for a member that is not a file. *)
Lemma extract_one_not_a_file (tar : gmap string member) (filename : string)
    (acc : list string) (w : World Kw) :
  tar !! filename = Some NotAFile ->
  extract_body tar acc filename w
  = (Raise AttributeError, set_files (<[mktemp (files w) := ""]> (files w)) w).
Proof.
  intros Hm. unfold bind, extractfile, with_NamedTemporaryFile. by rewrite Hm.
Qed.

(** One turn of the extraction loop, for a name that is not in the
    archive. *)
Lemma extract_one_missing (tar : gmap string member) (filename : string)
    (acc : list string) (w : World Kw) :
  tar !! filename = None ->
  extract_body tar acc filename w = (Raise KeyError, w).
Proof. intros Hm. unfold bind, extractfile. by rewrite Hm. Qed.

(** The extraction loop either finds every name to be a regular file, or
    stops at the first name that is not, with [KeyError] or
    [AttributeError]; then it has called nothing, and the disk holds what
    it held before and the temporary files made so far. *)
Lemma extract_loop_cases (tar : gmap string member) (filenames : list string) :
  forall (acc : list string) (w : World Kw),
    (exists datas, Forall2 (regular tar) filenames datas)
    \/ (exists e w',
          for_acc filenames acc (extract_body tar) w = (Raise e, w')
          /\ (e = KeyError \/ e = AttributeError)
          /\ archives w' = archives w
          /\ calls w' = calls w
          /\ files w ⊆ files w').
Proof.
  induction filenames as [|f filenames IH]; intros acc w.
  - left. exists []. constructor.
  - destruct (tar !! f) as [[d|]|] eqn:Hf.
    + destruct (IH (acc ++ [mktemp (files w)])
                  (set_files (<[mktemp (files w) := d]> (files w)) w))
        as [[datas Hall]|(e & w' & Hrun & He & Har & Hcalls & Hsub)].
      * left. exists (d :: datas). by constructor.
      * right. exists e, w'. cbn [for_acc]. unfold bind at 1.
        rewrite (extract_one mktemp _ _ _ _ _ Hf). rewrite Hrun.
        repeat split; try done.
        etrans; [|exact Hsub]. simpl. by apply insert_subseteq.
    + right. exists AttributeError,
        (set_files (<[mktemp (files w) := ""]> (files w)) w).
      cbn [for_acc]. unfold bind at 1.
      rewrite (extract_one_not_a_file _ _ _ _ Hf).
      repeat split; try done; [by right|]. simpl. by apply insert_subseteq.
    + right. exists KeyError, w. cbn [for_acc]. unfold bind at 1.
      rewrite (extract_one_missing _ _ _ _ Hf).
      repeat split; try done. by left.
Qed.

(** The run of [tar_wrapper_multiple] when every name is a regular file
    and there is at least one. *)
Lemma tar_wrapper_multiple_run (function : callable Kw V) (kwargs : Kw)
    (tarpath : string) (filenames datas : list string) (w : World Kw)
    (tar : gmap string member) :
  archives w !! tarpath = Some tar ->
  Forall2 (regular tar) filenames datas ->
  filenames <> [] ->
  tar_wrapper_multiple mktemp tarpath filenames function kwargs w
  = (function (fst (staged mktemp datas (files w))) kwargs
       (snd (staged mktemp datas (files w))),
     mkWorld (archives w) (files w)
       (calls w ++ [(fst (staged mktemp datas (files w)), kwargs)])).
Proof.
  intros Har Hall Hne.
  destruct (staged mktemp datas (files w)) as [ps fs1] eqn:Hst.
  destruct (staged_spec mktemp mktemp_fresh _ _ _ _ Hst) as (Hlen & _).
  assert (Hlen' : List.length ps = List.length filenames).
  { rewrite Hlen. symmetry. by eapply Forall2_length. }
  unfold tar_wrapper_multiple.
  unfold bind at 1. unfold with_tarfile_open. rewrite Har.
  rewrite (extract_loop mktemp _ _ _ Hall). rewrite Hst. simpl.
  destruct ps as [|p ps].
  { destruct filenames; [done | discriminate Hlen']. }
  unfold bind at 1. unfold try_finally, bind at 1, call.
  destruct (staged_removed mktemp mktemp_fresh datas (files w)
              (log_call (p :: ps, kwargs) w)) as (fs' & Hrun & ->).
  rewrite Hst in Hrun. cbn [fst snd] in Hrun.
  change (log_call (p :: ps, kwargs) (set_files fs1 w))
    with (set_files fs1 (log_call (p :: ps, kwargs) w)).
  change (files (set_files fs1 w)) with fs1.
  destruct (function (p :: ps) kwargs fs1) as [v|e];
    unfold ret at 1; rewrite Hrun; reflexivity.
Qed.

(** The run of [tar_wrapper_multiple] when some name is not a regular
    file of the archive. *)
Lemma tar_wrapper_multiple_stops (function : callable Kw V) (kwargs : Kw)
    (tarpath : string) (filenames : list string) (w : World Kw)
    (tar : gmap string member) :
  archives w !! tarpath = Some tar ->
  ~ (exists datas, Forall2 (regular tar) filenames datas) ->
  exists e w',
    tar_wrapper_multiple mktemp tarpath filenames function kwargs w
    = (Raise e, w')
    /\ (e = KeyError \/ e = AttributeError)
    /\ archives w' = archives w
    /\ calls w' = calls w
    /\ files w ⊆ files w'.
Proof.
  intros Har Hnot.
  destruct (extract_loop_cases tar filenames [] w)
    as [Hall|(e & w' & Hrun & He & Hrest)]; [done|].
  exists e, w'. split; [|done].
  unfold tar_wrapper_multiple. unfold bind at 1. unfold with_tarfile_open.
  rewrite Har. by rewrite Hrun.
Qed.

(** X4.  [tar_wrapper_multiple] calls the function at most once, and it
    calls it exactly when the archive opens, there is at least one name
    and every name is a regular file of the archive. *)
Theorem tar_wrapper_multiple_called_iff (function : callable Kw V) (kwargs : Kw)
    (tarpath : string) (filenames : list string) (w : World Kw) :
  let w' := snd (tar_wrapper_multiple mktemp tarpath filenames function kwargs w) in
  (calls w' = calls w \/ exists tmps, calls w' = calls w ++ [(tmps, kwargs)])
  /\ (calls w' <> calls w
      <-> filenames <> []
          /\ exists tar datas,
               archives w !! tarpath = Some tar
               /\ Forall2 (regular tar) filenames datas).
Proof.
  intros w'. subst w'.
  assert (Hgrow : forall (l : list (list string * Kw)) c, l ++ [c] <> l).
  { intros l c Heq. apply (f_equal List.length) in Heq.
    rewrite length_app in Heq. simpl in Heq. lia. }
  destruct (archives w !! tarpath) as [tar|] eqn:Har.
  - destruct (decide (filenames = [])) as [->|Hne].
    + unfold tar_wrapper_multiple, bind, with_tarfile_open. rewrite Har. simpl.
      split; [by left|]. split; [done | by intros [? _]].
    + destruct (extract_loop_cases tar filenames [] w)
        as [[datas Hall]|(e & w1 & Hrun & _)].
      * rewrite (tar_wrapper_multiple_run _ _ _ _ _ _ _ Har Hall Hne). simpl.
        split; [right; by eexists|]. split; [|intros _; apply Hgrow].
        intros _. split; [done|]. by exists tar, datas.
      * assert (Hnot : ~ exists datas, Forall2 (regular tar) filenames datas).
        { intros [datas Hall].
          rewrite (extract_loop mktemp _ _ _ Hall) in Hrun. discriminate. }
        destruct (tar_wrapper_multiple_stops function kwargs _ _ _ _ Har Hnot)
          as (e' & w' & -> & _ & _ & Hcalls & _). simpl.
        split; [by left|]. split; [done|].
        intros (_ & tar' & datas & [= <-] & Hall). exfalso. apply Hnot.
        by exists datas.
  - unfold tar_wrapper_multiple, bind, with_tarfile_open. rewrite Har. simpl.
    split; [by left|]. split; [done|]. by intros (_ & ? & ? & ? & _).
Qed.

(** X5.  On every path, whatever the archive and the names,
    [tar_wrapper_multiple] leaves each file that was on disk before the
    call in place with its content, and leaves the archives as they
    were. *)
Theorem tar_wrapper_multiple_keeps_files (function : callable Kw V) (kwargs : Kw)
    (tarpath : string) (filenames : list string) (w : World Kw) :
  let w' := snd (tar_wrapper_multiple mktemp tarpath filenames function kwargs w) in
  archives w' = archives w
  /\ forall path data, files w !! path = Some data -> files w' !! path = Some data.
Proof.
  intros w'. subst w'.
  destruct (archives w !! tarpath) as [tar|] eqn:Har.
  - destruct (decide (filenames = [])) as [->|Hne].
    + unfold tar_wrapper_multiple, bind, with_tarfile_open. rewrite Har. by simpl.
    + destruct (extract_loop_cases tar filenames [] w)
        as [[datas Hall]|(e & w1 & Hrun & _)].
      * by rewrite (tar_wrapper_multiple_run _ _ _ _ _ _ _ Har Hall Hne).
      * assert (Hnot : ~ exists datas, Forall2 (regular tar) filenames datas).
        { intros [datas Hall].
          rewrite (extract_loop mktemp _ _ _ Hall) in Hrun. discriminate. }
        destruct (tar_wrapper_multiple_stops function kwargs _ _ _ _ Har Hnot)
          as (e' & w' & -> & _ & Harch & _ & Hsub). simpl.
        split; [done|]. intros path data Hp.
        by eapply lookup_weaken.
  - unfold tar_wrapper_multiple, bind, with_tarfile_open. rewrite Har. by simpl.
Qed.

(** X2.  [tar_wrapper_single] fails without calling the function and
    without a trace on disk when nothing is at the path of the archive
    ([FileNotFoundError]), when the file at that path is not an archive
    ([ReadError]), when the archive has no such member ([KeyError]) and
    when the member is not a file ([AttributeError]). *)
Theorem tar_wrapper_single_errors (function : callable Kw V) (kwargs : Kw)
    (tarpath filename : string) (w : World Kw) :
  (archives w !! tarpath = None -> files w !! tarpath = None ->
   tar_wrapper_single mktemp tarpath filename function kwargs w
   = (Raise FileNotFoundError, w))
  /\ (forall data,
        archives w !! tarpath = None -> files w !! tarpath = Some data ->
        tar_wrapper_single mktemp tarpath filename function kwargs w
        = (Raise ReadError, w))
  /\ (forall tar,
        archives w !! tarpath = Some tar -> tar !! filename = None ->
        tar_wrapper_single mktemp tarpath filename function kwargs w
        = (Raise KeyError, w))
  /\ (forall tar,
        archives w !! tarpath = Some tar -> tar !! filename = Some NotAFile ->
        tar_wrapper_single mktemp tarpath filename function kwargs w
        = (Raise AttributeError, w)).
Proof.
  unfold tar_wrapper_single, bind, with_tarfile_open, open_error, extractfile.
  split; [|split; [|split]].
  - by intros -> ->.
  - by intros data -> ->.
  - intros tar -> Hm. by rewrite Hm.
  - intros tar -> Hm. rewrite Hm. simpl.
    unfold with_NamedTemporaryFile, set_files. simpl.
    rewrite delete_insert_eq, delete_id by apply mktemp_fresh.
    by destruct w.
Qed.

(** The run of [tar_wrapper_single] on a name that the archive does not
    have. *)
Lemma tar_wrapper_single_missing (function : callable Kw V) (kwargs : Kw)
    (tarpath filename : string) (w : World Kw) (tar : gmap string member) :
  archives w !! tarpath = Some tar ->
  tar !! filename = None ->
  tar_wrapper_single mktemp tarpath filename function kwargs w
  = (Raise KeyError, w).
Proof.
  intros Har Hm. unfold tar_wrapper_single, bind, with_tarfile_open, extractfile.
  by rewrite Har, Hm.
Qed.

(** The run of [tar_wrapper_single] on a regular file of the archive. *)
Lemma tar_wrapper_single_run (function : callable Kw V) (kwargs : Kw)
    (tarpath filename data : string) (w : World Kw) (tar : gmap string member) :
  archives w !! tarpath = Some tar ->
  tar !! filename = Some (RegFile data) ->
  tar_wrapper_single mktemp tarpath filename function kwargs w
  = (function [mktemp (files w)] kwargs (<[mktemp (files w) := data]> (files w)),
     mkWorld (archives w) (files w) (calls w ++ [([mktemp (files w)], kwargs)])).
Proof.
  intros Har Hm.
  unfold tar_wrapper_single, bind, with_tarfile_open. rewrite Har.
  unfold extractfile. rewrite Hm. simpl.
  unfold with_NamedTemporaryFile, call, log_call, set_files, ret. simpl.
  rewrite insert_insert_eq.
  rewrite delete_insert_eq. rewrite delete_id by apply mktemp_fresh.
  by destruct (function _ kwargs _).
Qed.

(** X3.  With one name, [tar_wrapper_multiple] does what
    [tar_wrapper_single] does: same outcome, same call, same disk
    afterwards, unless the name is a member that is not a file. *)
Theorem tar_wrapper_multiple_one_name (function : callable Kw V) (kwargs : Kw)
    (tarpath filename : string) (w : World Kw) :
  (forall tar,
     archives w !! tarpath = Some tar -> tar !! filename <> Some NotAFile) ->
  tar_wrapper_multiple mktemp tarpath [filename] function kwargs w
  = tar_wrapper_single mktemp tarpath filename function kwargs w.
Proof.
  intros Hfile.
  destruct (archives w !! tarpath) as [tar|] eqn:Har.
  - specialize (Hfile tar eq_refl).
    destruct (tar !! filename) as [[data|]|] eqn:Hm; [|done|].
    + rewrite (tar_wrapper_single_run _ _ _ _ _ _ _ Har Hm).
      rewrite (tar_wrapper_multiple_run function kwargs tarpath [filename]
                 [data] w tar Har); [done| |done].
      by repeat constructor.
    + rewrite (tar_wrapper_single_missing _ _ _ _ _ _ Har Hm).
      unfold tar_wrapper_multiple. unfold bind at 1. unfold with_tarfile_open.
      rewrite Har. cbn [for_acc]. unfold bind at 1.
      by rewrite (extract_one_missing _ _ _ _ Hm).
  - unfold tar_wrapper_multiple, tar_wrapper_single, bind, with_tarfile_open.
    by rewrite Har.
Qed.

(** X6.  When the names start with regular files and the next name is
    missing from the archive, [tar_wrapper_multiple] raises [KeyError]
    without calling the function, and the temporary files made for the
    names before it stay on disk, each with its member's bytes. *)
Theorem tar_wrapper_multiple_missing_member (function : callable Kw V)
    (kwargs : Kw) (tarpath : string) (found : list string) (missing : string)
    (rest datas : list string) (w : World Kw) (tar : gmap string member) :
  archives w !! tarpath = Some tar ->
  Forall2 (regular tar) found datas ->
  tar !! missing = None ->
  let tmps := fst (staged mktemp datas (files w)) in
  let disk := snd (staged mktemp datas (files w)) in
  tar_wrapper_multiple mktemp tarpath (found ++ missing :: rest) function kwargs w
  = (Raise KeyError, mkWorld (archives w) disk (calls w))
  /\ List.length tmps = List.length found
  /\ NoDup tmps
  /\ (forall i p d, tmps !! i = Some p -> datas !! i = Some d ->
        files w !! p = None /\ disk !! p = Some d).
Proof.
  intros Har Hall Hm tmps disk. subst tmps disk.
  destruct (staged mktemp datas (files w)) as [ps fs1] eqn:Hst.
  destruct (staged_spec mktemp mktemp_fresh _ _ _ _ Hst)
    as (Hlen & Hnd & Hnew & _ & Hdata).
  cbn [fst snd]. split; [|split; [|split; [done|]]].
  - unfold tar_wrapper_multiple. unfold bind at 1. unfold with_tarfile_open.
    rewrite Har. rewrite for_acc_app. unfold bind at 1.
    rewrite (extract_loop mktemp _ _ _ Hall). rewrite Hst. cbn [fst snd for_acc].
    unfold bind at 1. by rewrite (extract_one_missing _ _ _ _ Hm).
  - rewrite Hlen. symmetry. by eapply Forall2_length.
  - intros i p d Hp Hd. split; [|by eapply Hdata].
    apply Hnew. by eapply list_elem_of_lookup_2.
Qed.

End TarCoverage.

(** ** The loaders: failures, empty inputs and what is read *)

Section LoaderCoverage.

Import Py Loaders.

Variable is_decimal : N -> bool.
Variables Spectrum Num Positions : Type.
Variable from_horiba_txtfile : pathlike -> outcome Spectrum.
Variable from_renishaw_txtfile : pathlike -> outcome Spectrum.
Variable from_wasatch_csvfile : pathlike -> outcome Spectrum.
Variable from_generic_csvfile : pathlike -> outcome Spectrum.
Variable from_openraman_csvfiles :
  pathlike -> pathlike -> pathlike -> outcome Spectrum.
Variable read_renishaw_multipoint_txt :
  pathlike -> outcome (list Num * list (list Num) * Positions).
Variable RamanSpectrum : list Num -> list Num -> outcome Spectrum.
Variable REPO_ROOT_DIRECTORY : list string.
Variable disk : string -> option Os.tree.

#[local] Abbreviation load_acetonitrile :=
  (load_acetonitrile_spectra Spectrum from_horiba_txtfile from_renishaw_txtfile
     from_wasatch_csvfile from_generic_csvfile from_openraman_csvfiles
     REPO_ROOT_DIRECTORY).

#[local] Abbreviation load_cc124 :=
  (load_cc124_tap_spectra Spectrum Num Positions from_horiba_txtfile
     from_wasatch_csvfile from_generic_csvfile from_openraman_csvfiles
     read_renishaw_multipoint_txt RamanSpectrum REPO_ROOT_DIRECTORY).

#[local] Abbreviation load_chlamy :=
  (load_chlamy_spectra is_decimal from_generic_csvfile disk).

#[local] Abbreviation chlamy_selected := (Loaders.chlamy_selected is_decimal).

#[local] Abbreviation chlamy_site := (Loaders.chlamy_site is_decimal).

#[local] Abbreviation site_csv_name := (Loaders.site_csv_name is_decimal).

#[local] Abbreviation read := (chlamy_read from_generic_csvfile).

(** X7.  [load_acetonitrile_spectra] raises exactly when one of its five
    library calls raises, and then it raises the exception of the first
    of them that does, in the order horiba, renishaw, wasatch 785,
    openraman, wasatch 532; its dictionary lookups and the construction
    of its table never fail. *)
Theorem load_acetonitrile_raises (e : exn) :
  load_acetonitrile = Raise e
  <-> first_raise
        (acetonitrile_calls Spectrum from_horiba_txtfile from_renishaw_txtfile
           from_wasatch_csvfile from_generic_csvfile from_openraman_csvfiles
           REPO_ROOT_DIRECTORY)
      = Some e.
Proof.
  rewrite load_acetonitrile_unfold. unfold acetonitrile_calls.
  cbn [first_raise].
  destruct (from_horiba_txtfile _); cbn [obind]; [|split; congruence].
  destruct (from_renishaw_txtfile _); cbn [obind]; [|split; congruence].
  destruct (from_wasatch_csvfile _); cbn [obind]; [|split; congruence].
  destruct (from_openraman_csvfiles _ _ _); cbn [obind]; [|split; congruence].
  destruct (from_generic_csvfile _); cbn [obind]; split; congruence.
Qed.

(** X8.  [load_cc124_tap_spectra] raises exactly when one of its steps
    raises, and then it raises the exception of the first that does:
    the Horiba reader, the OpenRAMAN reader, the multipoint reader,
    [IndexError] from a scan without points, the constructor, the
    Wasatch 532 reader, the Wasatch 785 reader. *)
Theorem load_cc124_raises (e : exn) :
  load_cc124 = Raise e
  <-> first_raise
        (cc124_steps Spectrum Num Positions from_horiba_txtfile
           from_wasatch_csvfile from_generic_csvfile from_openraman_csvfiles
           read_renishaw_multipoint_txt RamanSpectrum REPO_ROOT_DIRECTORY)
      = Some e.
Proof.
  rewrite load_cc124_unfold. unfold cc124_steps, cc124_scan, void.
  destruct (from_horiba_txtfile _); cbn [obind first_raise]; [|split; congruence].
  destruct (from_openraman_csvfiles _ _ _); cbn [obind first_raise];
    [|split; congruence].
  destruct (read_renishaw_multipoint_txt _) as [[[wn ints] pos]|];
    cbn [obind first_raise fst snd]; [|split; congruence].
  destruct (first_row ints) as [row|]; cbn [obind first_raise];
    [|split; congruence].
  destruct (RamanSpectrum wn row); cbn [obind first_raise]; [|split; congruence].
  destruct (from_generic_csvfile _); cbn [obind first_raise]; [|split; congruence].
  destruct (from_wasatch_csvfile _); cbn [obind first_raise]; split; congruence.
Qed.

(** X9.  Whenever [load_acetonitrile_spectra] and
    [load_cc124_tap_spectra] both return, they return the same table,
    and five spectra each: spectrum [i] of the one and spectrum [i] of
    the other belong to the same row. *)
Theorem static_loaders_same_table (spectra spectra' : list Spectrum)
    (df df' : DataFrame) :
  load_acetonitrile = Ok (spectra, df) ->
  load_cc124 = Ok (spectra', df') ->
  df = df'
  /\ rows df
     = [ [CStr "horiba"; CInt 785]; [CStr "renishaw"; CInt 785];
         [CStr "wasatch"; CInt 785]; [CStr "openraman"; CInt 532];
         [CStr "wasatch"; CInt 532] ]
  /\ List.length spectra = 5 /\ List.length spectra' = 5.
Proof.
  intros (s0 & s1 & s2 & s3 & s4 & _ & -> & ->)%load_acetonitrile_returns.
  intros (t0 & t1 & t2 & t3 & t4 & _ & -> & ->)%load_cc124_returns.
  done.
Qed.

Lemma otraverse_first_raise {A B} (f : A -> outcome B) (l : list A) (e : exn) :
  otraverse f l = Raise e <-> first_raise (map f l) = Some e.
Proof.
  induction l as [|x l IH]; simpl; [done|].
  destruct (f x); simpl; [|split; congruence].
  rewrite <- IH. destruct (otraverse f l); simpl; split; congruence.
Qed.

(** X10.  [load_chlamy_spectra] raises exactly when the reader raises on
    one of the files it selects, and then it raises the exception of
    the first such file in the order of the walk: it raises nothing of
    its own, its four columns always having the same length. *)
Theorem load_chlamy_raises (data_directory : string) (e : exn) :
  load_chlamy data_directory = Raise e
  <-> first_raise
        (map read (chlamy_selected (walk_files disk data_directory)))
      = Some e.
Proof.
  rewrite load_chlamy_unfold, <- otraverse_first_raise.
  destruct (otraverse _ _); simpl; split; congruence.
Qed.

Lemma chlamy_selected_nil (candidates : list (string * string)) :
  (forall root f w n, (root, f) ∈ candidates -> ~ site_csv_name f w n) ->
  chlamy_selected candidates = [].
Proof.
  induction candidates as [|[root f] candidates IH]; intros Hnone; [done|].
  rewrite chlamy_selected_cons.
  destruct (chlamy_site f) as [[a b]|] eqn:Hsite.
  - destruct (chlamy_site_groups _ _ _ _ Hsite) as (w & n & -> & ->).
    apply chlamy_site_sound in Hsite. exfalso.
    apply (Hnone root f w n); [by left | done].
  - apply IH. intros root' f' w n Hin. apply (Hnone root'). by right.
Qed.

(** X11.  When no file under the directory has a name of the form
    [<well>-Site_<n>.csv], and so when the directory is empty or is not
    a directory at all, [load_chlamy_spectra] reads nothing and returns
    no spectra and a table with its four columns and no rows. *)
Theorem load_chlamy_nothing_to_load (data_directory : string) :
  (forall root f w n,
     (root, f) ∈ walk_files disk data_directory -> ~ site_csv_name f w n) ->
  load_chlamy data_directory
  = Ok ([], mkDataFrame ["instrument"; "λ_nm"; "well_ID"; "site"] []).
Proof.
  intros Hnone. rewrite load_chlamy_unfold.
  by rewrite (chlamy_selected_nil _ Hnone).
Qed.

End LoaderCoverage.

Section ChlamyReaders.

Import Py Loaders.

Variable is_decimal : N -> bool.
Variable Spectrum : Type.
Variable disk : string -> option Os.tree.

#[local] Abbreviation load_chlamy_spectra :=
  (Loaders.load_chlamy_spectra is_decimal).

#[local] Abbreviation site_csv_name := (Loaders.site_csv_name is_decimal).

Lemma otraverse_ext {A B} (f g : A -> outcome B) (l : list A) :
  (forall x, x ∈ l -> f x = g x) -> otraverse f l = otraverse g l.
Proof.
  induction l as [|x l IH]; intros Hfg; simpl; [done|].
  rewrite (Hfg x) by (by left). rewrite IH; [done|].
  intros y Hy. apply Hfg. by right.
Qed.

(** X12.  [load_chlamy_spectra] uses the reader only on the files it
    selects: two readers that agree on the files of the tree whose name
    has the form [<well>-Site_<n>.csv] give the same result, whatever
    they do on any other path. *)
Theorem load_chlamy_reads_only_selected
    (reader reader' : pathlike -> outcome Spectrum) (data_directory : string) :
  (forall root f w n,
     (root, f) ∈ walk_files disk data_directory ->
     site_csv_name f w n ->
     reader (Str (Os.path_join root f)) = reader' (Str (Os.path_join root f))) ->
  load_chlamy_spectra reader disk data_directory
  = load_chlamy_spectra reader' disk data_directory.
Proof.
  intros Hagree. rewrite !load_chlamy_unfold.
  rewrite (otraverse_ext (chlamy_read reader) (chlamy_read reader')); [done|].
  intros [[root f] [a b]] Hx. apply list_elem_of_lookup in Hx as [i Hx].
  destruct (chlamy_selected_lookup _ _ _ _ Hx) as [Hin Hsite]. simpl in Hin, Hsite.
  destruct (chlamy_site_groups _ _ _ _ Hsite) as (w & n & -> & ->).
  apply chlamy_site_sound in Hsite. unfold chlamy_read. simpl. eauto.
Qed.

Lemma path_join_under (a b : string) :
  Os.startswith "/" b = false -> exists rest, Os.path_join a b = a +:+ rest.
Proof.
  intros Hb. unfold Os.path_join. rewrite Hb.
  destruct (String.eqb a "" || Os.endswith_sep a); eauto.
Qed.

Lemma walk_under (t : Os.tree) :
  forall top,
    Os.relative_names t ->
    forall entry, entry ∈ Os.walk top t ->
    exists rest, fst (fst entry) = top +:+ rest.
Proof.
  revert t. fix IH 1. intros [subdirs nondirs] top Hnames entry Hin.
  simpl in Hin. apply elem_of_cons in Hin as [->|Hin].
  { exists "". simpl. by rewrite append_nil_r. }
  simpl in Hnames.
  induction subdirs as [|[dirname t'] subdirs IHsub]; [by apply elem_of_nil in Hin|].
  destruct Hnames as (Hrel & Ht' & Hrest).
  apply elem_of_app in Hin as [Hin|Hin]; [|by apply IHsub].
  destruct (IH t' _ Ht' _ Hin) as [rest ->].
  destruct (path_join_under top dirname Hrel) as [rest' ->].
  exists (rest' +:+ rest). by rewrite append_assoc.
Qed.

(** X14.  [load_chlamy_spectra] reads nothing outside the directory it is
    given: when the names of the sub-directories are relative, as those
    of directory entries are, every spectrum it returns was read from a
    path that starts with [data_directory]. *)
Theorem load_chlamy_paths_under_directory
    (reader : pathlike -> outcome Spectrum) (data_directory : string)
    (t : Os.tree) (spectra : list Spectrum) (df : DataFrame) :
  disk data_directory = Some t ->
  Os.relative_names t ->
  load_chlamy_spectra reader disk data_directory = Ok (spectra, df) ->
  Forall (fun s => exists rest, reader (Str (data_directory +:+ rest)) = Ok s)
    spectra.
Proof.
  intros Hdisk Hnames [Hreads _]%load_chlamy_returns.
  apply Forall_lookup. intros i s Hs.
  destruct (Forall2_lookup_r _ _ _ _ _ Hreads Hs) as ([[root f] [a b]] & Hx & Hread).
  destruct (chlamy_selected_lookup _ _ _ _ Hx) as [Hin Hsite]. simpl in Hin, Hsite.
  destruct (chlamy_site_groups _ _ _ _ Hsite) as (w & n & -> & ->).
  apply chlamy_site_sound in Hsite as ((c & num & -> & Hc & _) & _ & ->).
  unfold walk_files, Os.os_walk in Hin. rewrite Hdisk in Hin.
  apply list_elem_of_In, in_flat_map in Hin as ([[root' dirs] files] & Hentry & Hf).
  apply in_map_iff in Hf as (f' & [= Hroot' _] & _). subst root'.
  apply list_elem_of_In in Hentry.
  destruct (walk_under t data_directory Hnames _ Hentry) as [rest Hroot].
  simpl in Hroot. subst root.
  destruct (path_join_under (data_directory +:+ rest)
              (String c num +:+ "-Site_" +:+ n +:+ ".csv")) as [rest' Hjoin].
  { rewrite append_cons. unfold well_letters in Hc.
    repeat (apply elem_of_cons in Hc as [->|Hc]); try reflexivity.
    by apply elem_of_nil in Hc. }
  exists (rest +:+ rest'). unfold chlamy_read in Hread. simpl in Hread.
  by rewrite <- append_assoc, <- Hjoin.
Qed.

End ChlamyReaders.

Section NewlineNames.

Import Re Fnmatch Loaders.

Variable is_decimal : N -> bool.

(** The full stop, U+002E, is not a decimal digit. *)
Hypothesis full_stop_not_decimal : is_decimal 46 = false.

#[local] Abbreviation re_match := (Re.re_match is_decimal).
#[local] Abbreviation is_digit_string := (Loaders.is_digit_string is_decimal).
#[local] Abbreviation site_csv_name := (Loaders.site_csv_name is_decimal).
#[local] Abbreviation chlamy_site := (Loaders.chlamy_site is_decimal).

(** The pattern accepts a site-file name followed by a newline. *)
Lemma re_match_site_newline (w n : string) :
  is_well w -> is_digit_string n ->
  re_match site_regex (w +:+ "-Site_" +:+ n +:+ ".csv" +:+ String "010" "")
  = Some (<[2 := n]> (<[1 := w]> ∅)).
Proof.
  intros (c & num & -> & Hc & Hnum) [Hne Hds].
  destruct Hds as [|d cp n Hd Hcp Hds]; [done|]. clear Hne.
  unfold Re.re_match, site_regex. cbn [rmatch Nat.eqb].
  change ("-Site_" +:+ (d +:+ n) +:+ ".csv" +:+ String "010" "")
    with (String "-" ("Site_" +:+ (d +:+ n) +:+ ".csv" +:+ String "010" "")).
  rewrite rmatch_well; try done.
  - change (String "-" ("Site_" +:+ (d +:+ n) +:+ ".csv" +:+ String "010" ""))
      with ("-Site_" +:+ (d +:+ n) +:+ ".csv" +:+ String "010" "").
    rewrite rmatch_lit. rewrite append_assoc. unfold one_codepoint at 1.
    rewrite (encodes_append _ _ _ Hd), Hcp.
    apply greedy_digits; [done | rewrite length_append; lia | |].
    { unfold no_digit_head.
      change (Utf8.decode (".csv" +:+ String "010" ""))
        with (Some (46%N, ".", "csv" +:+ String "010" "")).
      exact full_stop_not_decimal. }
    cbv beta.
    rewrite Nat.sub_0_r, Nat.add_0_l, substring_prefix.
    replace (String.length (String c num) + String.length "-Site_"
             + String.length d + String.length n
             - (String.length (String c num) + String.length "-Site_"))
      with (String.length (d +:+ n)) by (rewrite length_append; lia).
    rewrite <- append_assoc.
    rewrite substring_prefix. reflexivity.
  - intros p d' s' g' Hd'. cbn [lit rmatch]. unfold one_char.
    destruct (Ascii.eqb_spec "-" d') as [<-|]; done.
Qed.

(** X13.  The [fnmatch] test that precedes [re.match] in
    [load_chlamy_spectra] changes the outcome for one kind of name only:
    the names that the pattern accepts and the loop still skips are the
    site-file names followed by a newline. *)
Theorem fnmatch_filters_only_trailing_newline (filename : string) :
  is_Some (re_match site_regex filename) /\ chlamy_site filename = None
  <-> exists w n,
        is_well w /\ is_digit_string n
        /\ filename = w +:+ "-Site_" +:+ n +:+ ".csv" +:+ String "010" "".
Proof.
  split.
  - intros [[m Hre] Hskip].
    destruct (re_match_site_sound _ _ _ Hre)
      as (w & n & tail & Hw & Hn & -> & [->| ->] & _).
    + exfalso. rewrite append_nil_r in Hskip.
      assert (Hsite : site_csv_name (w +:+ "-Site_" +:+ n +:+ ".csv") w n)
        by done.
      apply (chlamy_site_complete _ full_stop_not_decimal) in Hsite. congruence.
    + by exists w, n.
  - intros (w & n & Hw & Hn & ->). split.
    + rewrite re_match_site_newline by done. by eexists.
    + unfold Loaders.chlamy_site.
      destruct (fnmatch _ "*-Site_*.csv") eqn:Hfn; [|done]. exfalso.
      apply fnmatch_site in Hfn as (a & y & Hname).
      assert (H1 : last_char (w +:+ "-Site_" +:+ n +:+ ".csv" +:+ String "010" "")
                   = Some "010"%char).
      { rewrite <- !append_assoc. by rewrite last_char_append. }
      rewrite Hname in H1. rewrite <- !append_assoc in H1.
      by rewrite last_char_append in H1.
Qed.

End NewlineNames.

(** ** The properties at sample inputs *)

Section Witnesses.

Import Tar Py Loaders Sample.

Lemma tmp_name_fresh (fs : gmap string string) : fs !! tmp_name fs = None.
Proof. unfold tmp_name. apply not_elem_of_dom. apply is_fresh. Qed.

Lemma tar_wrapper_single_calls_function_witness :
  let w := one_member_world unit in
  let tmp := tmp_name (files w) in
  files w !! tmp = None
  /\ tar_wrapper_single tmp_name "a.tar" "x" read_all tt w
     = (read_all [tmp] tt (<[tmp := "data"]> (files w)),
        mkWorld (archives w) (files w) (calls w ++ [([tmp], tt)])).
Proof.
  apply (tar_wrapper_single_calls_function tmp_name tmp_name_fresh read_all tt
           "a.tar" "x" (one_member_world unit)
           {[ "x" := RegFile "data" ]} "data").
  - reflexivity.
  - reflexivity.
Defined.

Lemma tar_wrapper_multiple_calls_function_witness :
  let w := two_member_world unit in
  let tmps := fst (staged tmp_name ["one"; "two"] (files w)) in
  let disk := snd (staged tmp_name ["one"; "two"] (files w)) in
  List.length tmps = List.length ["x"; "y"]
  /\ NoDup tmps
  /\ (forall p, p ∈ tmps -> files w !! p = None)
  /\ (forall i p d,
        tmps !! i = Some p -> ["one"; "two"] !! i = Some d -> disk !! p = Some d)
  /\ (forall q, q ∉ tmps -> disk !! q = files w !! q)
  /\ tar_wrapper_multiple tmp_name "b.tar" ["x"; "y"] read_all tt w
     = (read_all tmps tt disk,
        mkWorld (archives w) (files w) (calls w ++ [(tmps, tt)])).
Proof.
  apply (tar_wrapper_multiple_calls_function tmp_name tmp_name_fresh read_all tt
           "b.tar" ["x"; "y"] (two_member_world unit)
           {[ "x" := RegFile "one"; "y" := RegFile "two" ]} ["one"; "two"]).
  - reflexivity.
  - repeat constructor.
  - discriminate.
Defined.

Lemma tar_wrapper_multiple_empty_witness :
  (exists e,
     tar_wrapper_multiple tmp_name "a.tar" [] read_all tt (one_member_world unit)
     = (Raise e, one_member_world unit)
     /\ (is_Some (archives (one_member_world unit) !! "a.tar") ->
         e = UnboundLocalError))
  /\ ["x"] <> [].
Proof.
  destruct (tar_wrapper_multiple_empty tmp_name read_all tt "a.tar"
              (one_member_world unit)) as [Hempty Hreturns].
  split; [exact Hempty|].
  eapply Hreturns. vm_compute. reflexivity.
Defined.

#[local] Abbreviation sample_acetonitrile :=
  (load_acetonitrile_spectra string (reader "horiba:") (reader "renishaw:")
     (reader "wasatch:") (reader "generic:") (reader3 "openraman:") repo_root).

#[local] Abbreviation sample_cc124 :=
  (load_cc124_tap_spectra string Z unit (reader "horiba:") (reader "wasatch:")
     (reader "generic:") (reader3 "openraman:") scan spectrum_of repo_root).

#[local] Abbreviation sample_chlamy :=
  (load_chlamy_spectra decimal (reader "generic:") plate "plate").

#[local] Abbreviation sample_parallel :=
  (table_parallel string Z unit (reader "horiba:") (reader "renishaw:")
     (reader "wasatch:") (reader "generic:") (reader3 "openraman:") scan
     spectrum_of repo_root).

Lemma loaders_tables_parallel_witness :
  (exists spectra df,
     sample_acetonitrile = Ok (spectra, df) /\ sample_parallel spectra df)
  /\ (exists spectra df,
        sample_cc124 = Ok (spectra, df) /\ sample_parallel spectra df)
  /\ (exists spectra df,
        sample_chlamy = Ok (spectra, df)
        /\ chlamy_parallel decimal (reader "generic:") plate "plate" spectra df).
Proof.
  destruct (loaders_tables_parallel decimal string Z unit (reader "horiba:")
              (reader "renishaw:") (reader "wasatch:") (reader "generic:")
              (reader3 "openraman:") scan spectrum_of repo_root plate)
    as (Hacetonitrile & Hcc124 & Hchlamy).
  split; [|split].
  - eexists _, _. split; [vm_compute; reflexivity|].
    apply Hacetonitrile. reflexivity.
  - eexists _, _. split; [vm_compute; reflexivity|].
    apply Hcc124. reflexivity.
  - eexists _, _. split; [vm_compute; reflexivity|].
    apply Hchlamy. reflexivity.
Defined.

Lemma load_chlamy_selects_site_files_witness :
  decimal 46 = false
  /\ exists spectra df,
       load_chlamy_spectra decimal (reader "generic:") plate_ar "plate"
       = Ok (spectra, df)
       /\ spectra = ["generic:plate/A1-Site_٣.csv";
                     "generic:plate/day1/B12-Site_33.csv"]
       /\ Forall2 (fun c s =>
                     reader "generic:" (Str (Os.path_join (fst c) (snd c))) = Ok s)
            (filter (fun c => is_Some (chlamy_site decimal (snd c)))
               (walk_files plate_ar "plate"))
            spectra
       /\ List.length (rows df)
          = List.length
              (filter (fun c => is_Some (chlamy_site decimal (snd c)))
                 (walk_files plate_ar "plate")).
Proof.
  split; [reflexivity|].
  eexists _, _. split; [vm_compute; reflexivity|].
  split; [reflexivity|].
  pose proof (load_chlamy_selects_site_files decimal string (reader "generic:")
                plate_ar eq_refl "plate") as H.
  cbv zeta in H. destruct H as (_ & _ & _ & Hloaded & _).
  apply Hloaded. reflexivity.
Defined.

Lemma load_acetonitrile_spectra_five_witness :
  exists spectra df,
    sample_acetonitrile = Ok (spectra, df)
    /\ exists s0 s1 s2 s3 s4,
         acetonitrile_reads string (reader "horiba:") (reader "renishaw:")
           (reader "wasatch:") (reader "generic:") (reader3 "openraman:")
           repo_root s0 s1 s2 s3 s4
         /\ spectra = [s0; s1; s2; s3; s4]
         /\ df = spectrometer_table.
Proof.
  eexists _, _. split; [vm_compute; reflexivity|].
  eapply (proj1 (proj2 (load_acetonitrile_spectra_five string
                          (reader "horiba:") (reader "renishaw:")
                          (reader "wasatch:") (reader "generic:")
                          (reader3 "openraman:") repo_root _ _))).
  reflexivity.
Defined.

Lemma load_cc124_renishaw_first_point_witness :
  exists spectra df,
    sample_cc124 = Ok (spectra, df)
    /\ exists wavenumbers_cm1 intensities positions row renishaw_spectrum,
         scan (Path (truediv (DATA_DIRECTORY repo_root)
                       "Renishaw_Qontor/CC-124_TAP_plate_5x_3_points.txt"))
         = Ok (wavenumbers_cm1, intensities, positions)
         /\ intensities !! 0 = Some row
         /\ spectrum_of wavenumbers_cm1 row = Ok renishaw_spectrum
         /\ spectra !! 1 = Some renishaw_spectrum
         /\ rows df !! 1 = Some [CStr "renishaw"; CInt 785].
Proof.
  eexists _, _. split; [vm_compute; reflexivity|].
  apply (load_cc124_renishaw_first_point string Z unit (reader "horiba:")
           (reader "wasatch:") (reader "generic:") (reader3 "openraman:")
           scan spectrum_of repo_root).
  reflexivity.
Defined.

Lemma load_chlamy_rows_witness :
  exists spectra df,
    sample_chlamy = Ok (spectra, df)
    /\ columns df = ["instrument"; "λ_nm"; "well_ID"; "site"]
    /\ forall row,
         row ∈ rows df ->
         exists root filename m well site,
           (root, filename) ∈ walk_files plate "plate"
           /\ Re.re_match decimal site_regex filename = Some m
           /\ Re.groups2 m = (Some well, Some site)
           /\ filename = well +:+ "-Site_" +:+ site +:+ ".csv"
           /\ row = [CStr "wasatch"; CInt 785; CStr well; CStr site].
Proof.
  eexists _, _. split; [vm_compute; reflexivity|].
  eapply (load_chlamy_rows decimal string (reader "generic:") plate "plate").
  reflexivity.
Defined.

End Witnesses.

Section CoverageWitnesses.

Import Tar Py Loaders Sample.

Lemma tar_wrapper_single_restores_disk_witness :
  files (snd (tar_wrapper_single tmp_name "c.tar" "d" read_all tt
                (dir_member_world unit)))
  = files (dir_member_world unit).
Proof.
  apply (tar_wrapper_single_restores_disk tmp_name tmp_name_fresh).
Defined.

Lemma tar_wrapper_single_errors_witness :
  tar_wrapper_single tmp_name "nowhere.tar" "x" read_all tt (dir_member_world unit)
  = (Raise FileNotFoundError, dir_member_world unit)
  /\ tar_wrapper_single tmp_name "notes.txt" "x" read_all tt (dir_member_world unit)
     = (Raise ReadError, dir_member_world unit)
  /\ tar_wrapper_single tmp_name "c.tar" "y" read_all tt (dir_member_world unit)
     = (Raise KeyError, dir_member_world unit)
  /\ tar_wrapper_single tmp_name "c.tar" "d" read_all tt (dir_member_world unit)
     = (Raise AttributeError, dir_member_world unit).
Proof.
  split; [|split; [|split]].
  - apply (tar_wrapper_single_errors tmp_name tmp_name_fresh read_all tt
             "nowhere.tar" "x" (dir_member_world unit)).
    + reflexivity.
    + reflexivity.
  - apply (proj1 (proj2 (tar_wrapper_single_errors tmp_name tmp_name_fresh
                           read_all tt "notes.txt" "x" (dir_member_world unit)))
             "kept").
    + reflexivity.
    + reflexivity.
  - apply (proj1 (proj2 (proj2 (tar_wrapper_single_errors tmp_name tmp_name_fresh
                           read_all tt "c.tar" "y" (dir_member_world unit))))
             {[ "d" := NotAFile; "x" := RegFile "data" ]}).
    + reflexivity.
    + reflexivity.
  - apply (proj2 (proj2 (proj2 (tar_wrapper_single_errors tmp_name tmp_name_fresh
                           read_all tt "c.tar" "d" (dir_member_world unit))))
             {[ "d" := NotAFile; "x" := RegFile "data" ]}).
    + reflexivity.
    + reflexivity.
Defined.

Lemma tar_wrapper_multiple_one_name_witness :
  tar_wrapper_multiple tmp_name "c.tar" ["x"] read_all tt (dir_member_world unit)
  = tar_wrapper_single tmp_name "c.tar" "x" read_all tt (dir_member_world unit).
Proof.
  apply (tar_wrapper_multiple_one_name tmp_name tmp_name_fresh).
  intros tar [= <-]. vm_compute. discriminate.
Defined.

Lemma tar_wrapper_multiple_called_iff_witness :
  let w := two_member_world unit in
  let w' := snd (tar_wrapper_multiple tmp_name "b.tar" ["x"; "y"] read_all tt w) in
  (calls w' = calls w \/ exists tmps, calls w' = calls w ++ [(tmps, tt)])
  /\ (calls w' <> calls w
      <-> ["x"; "y"] <> []
          /\ exists tar datas,
               archives w !! "b.tar" = Some tar
               /\ Forall2 (fun f d => tar !! f = Some (RegFile d)) ["x"; "y"]
                    datas).
Proof.
  apply (tar_wrapper_multiple_called_iff tmp_name tmp_name_fresh).
Defined.

Lemma tar_wrapper_multiple_keeps_files_witness :
  let w := dir_member_world unit in
  let w' := snd (tar_wrapper_multiple tmp_name "c.tar" ["x"; "d"] read_all tt w) in
  archives w' = archives w
  /\ forall path data, files w !! path = Some data -> files w' !! path = Some data.
Proof.
  apply (tar_wrapper_multiple_keeps_files tmp_name tmp_name_fresh).
Defined.

Lemma tar_wrapper_multiple_missing_member_witness :
  let w := dir_member_world unit in
  let tmps := fst (staged tmp_name ["data"] (files w)) in
  let disk := snd (staged tmp_name ["data"] (files w)) in
  tar_wrapper_multiple tmp_name "c.tar" (["x"] ++ "y" :: ["d"]) read_all tt w
  = (Raise KeyError, mkWorld (archives w) disk (calls w))
  /\ List.length tmps = List.length ["x"]
  /\ NoDup tmps
  /\ (forall i p d, tmps !! i = Some p -> ["data"] !! i = Some d ->
        files w !! p = None /\ disk !! p = Some d).
Proof.
  apply (tar_wrapper_multiple_missing_member tmp_name tmp_name_fresh read_all tt
           "c.tar" ["x"] "y" ["d"] ["data"] (dir_member_world unit)
           {[ "d" := NotAFile; "x" := RegFile "data" ]}).
  - reflexivity.
  - repeat constructor.
  - reflexivity.
Defined.

Lemma load_acetonitrile_raises_witness :
  load_acetonitrile_spectra string (reader "horiba:") unreadable
    (reader "wasatch:") (reader "generic:") (reader3 "openraman:") repo_root
  = Raise (LibraryError "unreadable").
Proof.
  apply (load_acetonitrile_raises string (reader "horiba:") unreadable
           (reader "wasatch:") (reader "generic:") (reader3 "openraman:")
           repo_root).
  reflexivity.
Defined.

Lemma load_cc124_raises_witness :
  load_cc124_tap_spectra string Z unit (reader "horiba:") unreadable
    unreadable (reader3 "openraman:") empty_scan spectrum_of repo_root
  = Raise IndexError.
Proof.
  apply (load_cc124_raises string Z unit (reader "horiba:") unreadable
           unreadable (reader3 "openraman:") empty_scan spectrum_of repo_root).
  reflexivity.
Defined.

Lemma static_loaders_same_table_witness :
  exists spectra df spectra' df',
    load_acetonitrile_spectra string (reader "horiba:") (reader "renishaw:")
      (reader "wasatch:") (reader "generic:") (reader3 "openraman:") repo_root
    = Ok (spectra, df)
    /\ load_cc124_tap_spectra string Z unit (reader "horiba:")
         (reader "wasatch:") (reader "generic:") (reader3 "openraman:") scan
         spectrum_of repo_root
       = Ok (spectra', df')
    /\ df = df'
    /\ rows df
       = [ [CStr "horiba"; CInt 785]; [CStr "renishaw"; CInt 785];
           [CStr "wasatch"; CInt 785]; [CStr "openraman"; CInt 532];
           [CStr "wasatch"; CInt 532] ]
    /\ List.length spectra = 5 /\ List.length spectra' = 5.
Proof.
  eexists _, _, _, _. split; [vm_compute; reflexivity|].
  split; [vm_compute; reflexivity|].
  eapply (static_loaders_same_table string Z unit (reader "horiba:")
            (reader "renishaw:") (reader "wasatch:") (reader "generic:")
            (reader3 "openraman:") scan spectrum_of repo_root).
  - reflexivity.
  - reflexivity.
Defined.

Lemma load_chlamy_raises_witness :
  load_chlamy_spectra decimal unreadable plate "plate"
  = Raise (LibraryError "unreadable").
Proof.
  apply (load_chlamy_raises decimal string unreadable plate "plate").
  reflexivity.
Defined.

Lemma load_chlamy_nothing_to_load_witness :
  load_chlamy_spectra decimal unreadable notes "notes"
  = Ok ([], mkDataFrame ["instrument"; "λ_nm"; "well_ID"; "site"] []).
Proof.
  apply (load_chlamy_nothing_to_load decimal string unreadable notes "notes").
  intros root f w n Hin Hsite.
  apply (chlamy_site_complete decimal eq_refl) in Hsite.
  apply list_elem_of_In in Hin. vm_compute in Hin.
  destruct Hin as [[= <- <-]|[[= <- <-]|[]]]; vm_compute in Hsite; discriminate.
Defined.

Lemma load_chlamy_reads_only_selected_witness :
  load_chlamy_spectra decimal (reader "generic:") plate_ar "plate"
  = load_chlamy_spectra decimal plate_reader plate_ar "plate".
Proof.
  apply (load_chlamy_reads_only_selected decimal string plate_ar
           (reader "generic:") plate_reader "plate").
  intros root f w n Hin _.
  apply list_elem_of_In in Hin. vm_compute in Hin.
  destruct Hin as [[= <- <-]|[[= <- <-]|[[= <- <-]|[[= <- <-]|[[= <- <-]|[]]]]]];
    reflexivity.
Defined.

Lemma fnmatch_filters_only_trailing_newline_witness :
  decimal 46 = false
  /\ is_Some (Re.re_match decimal site_regex
                ("H12-Site_0٣.csv" +:+ String "010" ""))
  /\ chlamy_site decimal ("H12-Site_0٣.csv" +:+ String "010" "") = None.
Proof.
  split; [reflexivity|].
  apply (fnmatch_filters_only_trailing_newline decimal eq_refl
           ("H12-Site_0٣.csv" +:+ String "010" "")).
  exists "H12", "0٣". split; [|split; [|reflexivity]].
  - exists "H"%char, "12". split; [reflexivity|].
    split; apply (bool_decide_unpack _); by vm_compute.
  - split; [discriminate|].
    change "0٣" with ("0" +:+ ("٣" +:+ "")).
    apply (all_digits_cons decimal "0" 48); [reflexivity | reflexivity |].
    apply (all_digits_cons decimal "٣" 1635); [reflexivity | reflexivity |].
    constructor.
Defined.

Lemma load_chlamy_paths_under_directory_witness :
  exists spectra df,
    load_chlamy_spectra decimal (reader "generic:") plate "plate"
    = Ok (spectra, df)
    /\ Forall (fun s => exists rest,
                 reader "generic:" (Str ("plate" +:+ rest)) = Ok s)
         spectra.
Proof.
  eexists _, _. split; [vm_compute; reflexivity|].
  eapply (load_chlamy_paths_under_directory decimal string plate
            (reader "generic:") "plate").
  - reflexivity.
  - simpl. repeat split.
  - reflexivity.
Defined.

End CoverageWitnesses.
